(** * Hayward pool heater component: the Clock frame and the typed-frame macro

    A shallow embedding of [components/hwp/FrameClock.h], [FrameClock.cpp] and
    of the parts of [base_frame.h] they rest on: the [clock_time] payload
    struct, the members that the macro [CLASS_DEFAULT_IMPL] gives every typed
    frame ([stage], [transfer], [is_changed], [has_previous_data]), the
    members of [FrameClock] written out in [FrameClock.cpp], and the
    assignment of a byte array to a [BaseFrame].

    [uint8_t] is [byte]; [size_t] lengths and indices are [nat]; [int] and
    [time_t] are [Z]; [std::string] is [string]; [esphome::optional<T>] is
    [option T]; an object mutated in place is passed in and returned. *)

From Stdlib Require Import ZArith NArith Arith List String Ascii Bool Lia.
From Stdlib Require Import DecimalString.
From Stdlib.Strings Require Import Byte.
Import ListNotations.

Open Scope string_scope.

(* ------------------------------------------------------------------------- *)
(** * Text streams *)

Module Stream.

(** [operator<<] of an [int] that is never negative: its decimal digits. *)
Definition decimal (n : N) : string := NilZero.string_of_uint (N.to_uint n).

Fixpoint fill_string (n : nat) (c : ascii) : string :=
  match n with
  | O => EmptyString
  | S k => String c (fill_string k c)
  end.

(** [oss << std::setw(w) << std::setfill(c) << n]: the field is padded on
    the left up to width [w]; a longer field is written whole. *)
Definition put_int (w : nat) (c : ascii) (n : N) : string :=
  let digits := decimal n in
  fill_string (w - String.length digits) c ++ digits.

(** [s[i]] for [i < s.size()]. *)
Definition char_at (s : string) (i : nat) : ascii :=
  match String.get i s with
  | Some c => c
  | None => Ascii.zero
  end.

(** [s.substr(pos)]: from [pos] to the end. *)
Definition substr (s : string) (pos : nat) : string :=
  String.substring pos (String.length s - pos) s.

Definition of_char (c : ascii) : string := String c EmptyString.

End Stream.

(* ------------------------------------------------------------------------- *)
(** * CS.h *)

Module CS.

(** Modelled from the spec: [CS.h] is not among the sources. The spec's
    diff highlighter emits characters and a highlight marker pair and
    nothing else, so [CS] is a text accumulator: [operator<<] appends,
    [str()] gives the text back, and [set_changed_base_color] records its
    flag without writing characters. The markers [CS::invert] and
    [CS::invert_rst] are the two fields of [markers]. *)
Record markers : Type := { invert : string; invert_rst : string }.

Record t : Type := { buf : string; changed_base_color : bool }.

Definition new : t := {| buf := ""; changed_base_color := false |}.

Definition set_changed_base_color (cs : t) (changed : bool) : t :=
  {| buf := buf cs; changed_base_color := changed |}.

Definition put (cs : t) (s : string) : t :=
  {| buf := buf cs ++ s; changed_base_color := changed_base_color cs |}.

Definition str (cs : t) : string := buf cs.

End CS.

Notation "cs << s" := (CS.put cs s) (at level 50, left associativity).

(* ------------------------------------------------------------------------- *)
(** * <ctime> *)

Module CTime.

Record tm : Type := {
  tm_sec : Z; tm_min : Z; tm_hour : Z; tm_mday : Z; tm_mon : Z;
  tm_year : Z; tm_wday : Z; tm_yday : Z; tm_isdst : Z
}.

(** [std::tm tm_time{}]. *)
Definition tm_zero : tm :=
  {| tm_sec := 0; tm_min := 0; tm_hour := 0; tm_mday := 0; tm_mon := 0;
     tm_year := 0; tm_wday := 0; tm_yday := 0; tm_isdst := 0 |}.

Definition time_t : Type := Z.

Definition set_tm_sec (v : Z) (t : tm) : tm :=
  {| tm_sec := v; tm_min := tm_min t; tm_hour := tm_hour t;
     tm_mday := tm_mday t; tm_mon := tm_mon t; tm_year := tm_year t;
     tm_wday := tm_wday t; tm_yday := tm_yday t; tm_isdst := tm_isdst t |}.

Definition set_tm_min (v : Z) (t : tm) : tm :=
  {| tm_sec := tm_sec t; tm_min := v; tm_hour := tm_hour t;
     tm_mday := tm_mday t; tm_mon := tm_mon t; tm_year := tm_year t;
     tm_wday := tm_wday t; tm_yday := tm_yday t; tm_isdst := tm_isdst t |}.

Definition set_tm_hour (v : Z) (t : tm) : tm :=
  {| tm_sec := tm_sec t; tm_min := tm_min t; tm_hour := v;
     tm_mday := tm_mday t; tm_mon := tm_mon t; tm_year := tm_year t;
     tm_wday := tm_wday t; tm_yday := tm_yday t; tm_isdst := tm_isdst t |}.

Definition set_tm_mday (v : Z) (t : tm) : tm :=
  {| tm_sec := tm_sec t; tm_min := tm_min t; tm_hour := tm_hour t;
     tm_mday := v; tm_mon := tm_mon t; tm_year := tm_year t;
     tm_wday := tm_wday t; tm_yday := tm_yday t; tm_isdst := tm_isdst t |}.

Definition set_tm_mon (v : Z) (t : tm) : tm :=
  {| tm_sec := tm_sec t; tm_min := tm_min t; tm_hour := tm_hour t;
     tm_mday := tm_mday t; tm_mon := v; tm_year := tm_year t;
     tm_wday := tm_wday t; tm_yday := tm_yday t; tm_isdst := tm_isdst t |}.

Definition set_tm_year (v : Z) (t : tm) : tm :=
  {| tm_sec := tm_sec t; tm_min := tm_min t; tm_hour := tm_hour t;
     tm_mday := tm_mday t; tm_mon := tm_mon t; tm_year := v;
     tm_wday := tm_wday t; tm_yday := tm_yday t; tm_isdst := tm_isdst t |}.

End CTime.

(* ------------------------------------------------------------------------- *)
(** * FrameClock.h: struct clock_time *)

Module ClockTime.
Import Stream CTime.

Record clock_time : Type := {
  id : byte;
  reserved1 : byte;
  reserved2 : byte;
  year : byte;
  month : byte;
  day : byte;
  hour : byte;
  minute : byte;
  reserved3 : byte;
  reserved4 : byte
}.

(** [static_cast<int>] of a [uint8_t]. *)
Definition to_int (b : byte) : Z := Z.of_N (Byte.to_N b).

(** The members of the packed struct, in declaration order, with the
    [sizeof] of each. *)
Definition layout : list (string * nat) :=
  [ ("id", 1); ("reserved1", 1); ("reserved2", 1); ("year", 1);
    ("month", 1); ("day", 1); ("hour", 1); ("minute", 1);
    ("reserved3", 1); ("reserved4", 1) ]%nat.

(** [sizeof] of a struct declared [__attribute__((packed))]: the members'
    sizes added up, with no padding. *)
Definition sizeof_packed (l : list (string * nat)) : nat :=
  fold_right (fun f acc => (snd f + acc)%nat) O l.

Definition sizeof_clock_time_t : nat := sizeof_packed layout.

(** The bytes of the struct in memory. *)
Definition bytes_of (c : clock_time) : list byte :=
  [ id c; reserved1 c; reserved2 c; year c; month c; day c; hour c;
    minute c; reserved3 c; reserved4 c ].

(** [static_assert(sizeof(clock_time_t) == frame_data_length - 2, ...)];
    [frame_data_length] is declared in [Schema.h], which is not among the
    sources, and is taken as an argument. *)
Definition static_assert_size (frame_data_length : Z) : bool :=
  (Z.of_nat sizeof_clock_time_t =? frame_data_length - 2)%Z.

(** [std::mktime] belongs to the C library and is taken as an argument. *)
Definition decode (mktime : tm -> time_t) (self : clock_time) : time_t :=
  let tm_time := tm_zero in
  let tm_time := set_tm_year (to_int (year self)) tm_time in
  let tm_time := set_tm_mon (to_int (month self)) tm_time in
  let tm_time := set_tm_mday (to_int (day self)) tm_time in
  let tm_time := set_tm_hour (to_int (hour self)) tm_time in
  let tm_time := set_tm_min (to_int (minute self)) tm_time in
  let tm_time := set_tm_sec 0 tm_time in
  mktime tm_time.

Definition format (self : clock_time) : string :=
  let oss := "" in
  let oss := oss ++ put_int 4 "0" (Byte.to_N (year self)) ++ "/" in
  let oss := oss ++ put_int 2 "0" (Byte.to_N (month self)) ++ "/" in
  let oss := oss ++ put_int 2 "0" (Byte.to_N (day self)) ++ " - " in
  let oss := oss ++ put_int 2 "0" (Byte.to_N (hour self)) ++ ":" in
  let oss := oss ++ put_int 2 "0" (Byte.to_N (minute self)) in
  oss.

(** One turn of the loop of [diff], at index [i]. *)
Definition diff_step (cs_inv cs_inv_rst ref cur : string)
    (cs : CS.t) (i : nat) : CS.t :=
  if negb (Ascii.eqb (char_at ref i) (char_at cur i))
  then cs << cs_inv << of_char (char_at cur i) << cs_inv_rst
  else cs << of_char (char_at cur i).

(** The body of [diff] once [ref] and [cur] have been formatted. *)
Definition diff_text (m : CS.markers) (ref cur separator : string) : string :=
  let cs := CS.new in
  let changed := negb (String.eqb ref cur) in
  let cs := CS.set_changed_base_color cs changed in
  let cs_inv := if changed then CS.invert m else "" in
  let cs_inv_rst := if changed then CS.invert_rst m else "" in
  let n :=
    if Nat.ltb (String.length ref) (String.length cur)
    then String.length ref else String.length cur in
  let cs := fold_left (diff_step cs_inv cs_inv_rst ref cur) (seq 0 n) cs in
  let cs := if Nat.ltb n (String.length cur) then cs << substr cur n else cs in
  let cs := cs << separator in
  CS.str cs.

Definition diff (m : CS.markers) (self reference : clock_time)
    (separator : string) : string :=
  let ref := format reference in
  let cur := format self in
  diff_text m ref cur separator.

(** [operator==]. *)
Definition eqb (self other : clock_time) : bool :=
  Byte.eqb (id self) (id other) &&
  Byte.eqb (year self) (year other) &&
  Byte.eqb (month self) (month other) &&
  Byte.eqb (day self) (day other) &&
  Byte.eqb (hour self) (hour other) &&
  Byte.eqb (minute self) (minute other).

(** [operator!=]. *)
Definition neqb (self other : clock_time) : bool := negb (eqb self other).

End ClockTime.

(* ------------------------------------------------------------------------- *)
(** * Schema.h *)

Module Schema.
Import CTime.

(** Modelled from the spec: [Schema.h] is not among the sources. The frame
    buffer is a byte array of fixed capacity with an explicit length;
    [data] holds the whole array, so [sizeof(packet.data)] is the length
    of the list, and [data_len] counts the bytes in use. *)
Record hp_packetdata_t : Type := { data : list byte; data_len : nat }.

Definition sizeof_data (p : hp_packetdata_t) : nat := List.length (data p).

(** Modelled from the spec: the aggregate domain state, of which the Clock
    frame writes the member [time]; its other members are [others]. *)
Record heat_pump_data_t (Others : Type) : Type :=
  { time : time_t; others : Others }.

Arguments time {Others} _.
Arguments others {Others} _.

(** Modelled from the spec: [as_type<clock_time_t>()] reads the packed
    struct off the bytes of the buffer, member after member. *)
Definition as_clock_time (p : hp_packetdata_t) : ClockTime.clock_time :=
  let at_ (i : nat) := nth i (data p) x00 in
  {| ClockTime.id := at_ 0%nat;
     ClockTime.reserved1 := at_ 1%nat;
     ClockTime.reserved2 := at_ 2%nat;
     ClockTime.year := at_ 3%nat;
     ClockTime.month := at_ 4%nat;
     ClockTime.day := at_ 5%nat;
     ClockTime.hour := at_ 6%nat;
     ClockTime.minute := at_ 7%nat;
     ClockTime.reserved3 := at_ 8%nat;
     ClockTime.reserved4 := at_ 9%nat |}.

End Schema.

(* ------------------------------------------------------------------------- *)
(** * base_frame.h: class BaseFrame *)

Module BaseFrame.
Import Schema.

Inductive frame_source_t : Type :=
| SOURCE_UNKNOWN
| SOURCE_HEATER
| SOURCE_CONTROLLER
| SOURCE_LOCAL.

Record t : Type := {
  packet : hp_packetdata_t;
  transmitBitIndex : nat;
  finalized : bool;
  source_ : frame_source_t;
  frame_time_ms_ : N;
  frame_age_ms_ : N;
  type_id_ : nat;
  byte_signature_ : option byte;
  prev_ : option hp_packetdata_t
}.

Definition set_packet (p : hp_packetdata_t) (f : t) : t :=
  {| packet := p; transmitBitIndex := transmitBitIndex f;
     finalized := finalized f; source_ := source_ f;
     frame_time_ms_ := frame_time_ms_ f; frame_age_ms_ := frame_age_ms_ f;
     type_id_ := type_id_ f; byte_signature_ := byte_signature_ f;
     prev_ := prev_ f |}.

(** Modelled from the spec: [set_frame_time_ms()] is defined in
    [base_frame.cpp], which is not among the sources; it stamps the frame
    with the capture time, here the reading [now] of the millisecond
    clock. *)
Definition set_frame_time_ms (now : N) (f : t) : t :=
  {| packet := packet f; transmitBitIndex := transmitBitIndex f;
     finalized := finalized f; source_ := source_ f;
     frame_time_ms_ := now; frame_age_ms_ := frame_age_ms_ f;
     type_id_ := type_id_ f; byte_signature_ := byte_signature_ f;
     prev_ := prev_ f |}.

(** [std::memcpy(dst, src, n)]: the first [n] bytes of [dst] become those
    of [src], the others stay. *)
Definition memcpy (dst src : list byte) (n : nat) : list byte :=
  firstn n src ++ skipn n dst.

(** [operator=(const unsigned char (&base_data)[N])]; [N] is the length of
    the array. *)
Definition assign_array (now : N) (self : t) (base_data : list byte) : t :=
  let N := List.length base_data in
  let len := if (N <=? sizeof_data (packet self))%nat
             then N else sizeof_data (packet self) in
  let self := set_packet {| data := data (packet self); data_len := len |} self in
  let self :=
    set_packet {| data := memcpy (data (packet self)) base_data
                            (data_len (packet self));
                  data_len := data_len (packet self) |} self in
  set_frame_time_ms now self.

(** Modelled from the spec: [BaseFrame::stage] is defined in
    [base_frame.cpp], which is not among the sources; it copies the raw
    bytes of [base] in. *)
Definition stage (self base : t) : t := set_packet (packet base) self.

End BaseFrame.

(* ------------------------------------------------------------------------- *)
(** * base_frame.h: the macro CLASS_DEFAULT_IMPL *)

Module TypedFrame.
Import Schema.

Section ClassDefaultImpl.

(** The payload struct [type_name], the instance of
    [packet.as_type<type_name>()] for it (a template of [Schema.h]), and
    its [operator!=]. *)
Variable type_name : Type.
Variable as_type : hp_packetdata_t -> type_name.
Variable neqb : type_name -> type_name -> bool.

Record t : Type := {
  base : BaseFrame.t;
  data_ : option type_name;
  prev_data_ : option type_name
}.

Definition has_value {A : Type} (o : option A) : bool :=
  match o with Some _ => true | None => false end.

(** [DerivedFrameClass()], over what [BaseFrame()] builds. *)
Definition new (b : BaseFrame.t) : t :=
  {| base := b; data_ := None; prev_data_ := None |}.

Definition stage (self : t) (b : BaseFrame.t) : t :=
  let self :=
    {| base := BaseFrame.stage (base self) b;
       data_ := data_ self; prev_data_ := prev_data_ self |} in
  {| base := base self;
     data_ := Some (as_type (BaseFrame.packet (base self)));
     prev_data_ := prev_data_ self |}.

Definition transfer (self : t) : t :=
  if has_value (data_ self)
  then {| base := base self; data_ := data_ self;
          prev_data_ := data_ self |}
  else self.

(** The operands of [||] are evaluated from the left, and the payloads
    are read only when both are present. *)
Definition is_changed (self : t) : bool :=
  match prev_data_ self with
  | None => true
  | Some prev =>
      match data_ self with
      | None => true
      | Some cur => neqb cur prev
      end
  end.

Definition has_previous_data (self : t) : bool :=
  has_value (data_ self) && has_value (prev_data_ self).

(** The calls of a processing loop on one frame object. *)
Inductive op : Type :=
| Stage (b : BaseFrame.t)
| Transfer.

Definition run_op (self : t) (o : op) : t :=
  match o with
  | Stage b => stage self b
  | Transfer => transfer self
  end.

Definition run (self : t) (ops : list op) : t := fold_left run_op ops self.

End ClassDefaultImpl.

Arguments base {type_name} _.
Arguments data_ {type_name} _.
Arguments prev_data_ {type_name} _.
Arguments new {type_name} _.
Arguments stage {type_name} _ _ _.
Arguments transfer {type_name} _.
Arguments is_changed {type_name} _ _.
Arguments has_previous_data {type_name} _.
Arguments run_op {type_name} _ _ _.
Arguments run {type_name} _ _ _.

End TypedFrame.

(* ------------------------------------------------------------------------- *)
(** * FrameClock.h, FrameClock.cpp: class FrameClock *)

Module FrameClock.
Import Schema CTime.

Definition t : Type := TypedFrame.t ClockTime.clock_time.

Definition FRAME_ID_CLOCK : byte := xcf.

Definition type_string : string := "CLOCK".

Definition stage (as_type : hp_packetdata_t -> ClockTime.clock_time)
    (self : t) (b : BaseFrame.t) : t :=
  TypedFrame.stage as_type self b.

Definition transfer (self : t) : t := TypedFrame.transfer self.

Definition is_changed (self : t) : bool :=
  TypedFrame.is_changed ClockTime.neqb self.

Definition parse {Others : Type} (mktime : tm -> time_t) (self : t)
    (hp_data : heat_pump_data_t Others) : heat_pump_data_t Others :=
  match TypedFrame.data_ self with
  | Some d =>
      {| time := ClockTime.decode mktime d; others := others hp_data |}
  | None => hp_data
  end.

(** [format(const clock_time_t &val, const clock_time_t &ref)]. *)
Definition format_val (m : CS.markers) (val ref : ClockTime.clock_time)
    : string :=
  ClockTime.diff m val ref "".

Definition format_prev (m : CS.markers) (self : t) : string :=
  match TypedFrame.prev_data_ self with
  | None => "N/A"
  | Some prev => format_val m prev prev
  end.

(** [format(bool no_diff)]. *)
Definition format (m : CS.markers) (self : t) (no_diff : bool) : string :=
  match TypedFrame.data_ self with
  | None => "N/A"
  | Some cur =>
      let ref :=
        if no_diff then cur
        else match TypedFrame.prev_data_ self with
             | Some prev => prev
             | None => cur
             end in
      format_val m cur ref
  end.

(** [control]: the frame object after the call, and what the call returns;
    [HWPCall] is declared in [hwp_call.h], which is not among the
    sources. *)
Definition control {HWPCall : Type} (self : t) (call : HWPCall)
    : t * option BaseFrame.t :=
  (self, None).

End FrameClock.

(* ------------------------------------------------------------------------- *)
(** * What the specification says of the diff highlighter *)

Module DiffSpec.
Import Stream.

(** A character of the current text, as it is emitted: between the two
    markers when it is [differs], alone otherwise. *)
Definition emit (inv rst : string) (differs : bool) (c : ascii) : string :=
  if differs then inv ++ of_char c ++ rst else of_char c.

(** The walk over the two texts, character by character, as long as both
    have one. *)
Fixpoint walk (inv rst ref cur : string) : string :=
  match ref, cur with
  | String r ref', String c cur' =>
      emit inv rst (negb (Ascii.eqb r c)) c ++ walk inv rst ref' cur'
  | _, _ => EmptyString
  end.

(** [s] without its first [n] characters. *)
Fixpoint drop (n : nat) (s : string) : string :=
  match n, s with
  | O, _ => s
  | S k, String _ s' => drop k s'
  | S _, EmptyString => EmptyString
  end.

(** The remainder of the longer text past the common length. *)
Definition remainder_of_longer (ref cur : string) : string :=
  if Nat.ltb (String.length ref) (String.length cur)
  then drop (String.length ref) cur
  else drop (String.length cur) ref.

(** The diff as the specification words it: the walk, then the remainder
    of the longer text, unmarked. *)
Definition diff_as_specified (m : CS.markers) (ref cur separator : string)
    : string :=
  walk (CS.invert m) (CS.invert_rst m) ref cur
    ++ remainder_of_longer ref cur ++ separator.

(** The character of [cur] at index [i] differs from the reference when
    the reference has a character there and it is another one. *)
Definition differs_at (ref cur : string) (i : nat) : bool :=
  match String.get i ref, String.get i cur with
  | Some r, Some c => negb (Ascii.eqb r c)
  | _, _ => false
  end.

Fixpoint cat_map (f : nat -> string) (l : list nat) : string :=
  match l with
  | [] => EmptyString
  | i :: l' => f i ++ cat_map f l'
  end.

(** The current text with exactly its differing characters marked. *)
Definition highlighted (m : CS.markers) (ref cur : string) : string :=
  cat_map
    (fun i => emit (CS.invert m) (CS.invert_rst m) (differs_at ref cur i)
                (char_at cur i))
    (seq 0 (String.length cur)).

(** What one turn of the loop of [diff] writes. *)
Definition turn (inv rst ref cur : string) (i : nat) : string :=
  emit inv rst (negb (Ascii.eqb (char_at ref i) (char_at cur i)))
    (char_at cur i).

(** The texts differ in length and the diff is the diff as specified. *)
Definition appends_longer_remainder (m : CS.markers)
    (ref cur separator : string) : Prop :=
  String.length ref <> String.length cur ->
  ClockTime.diff_text m ref cur separator
  = diff_as_specified m ref cur separator.

End DiffSpec.

(* ------------------------------------------------------------------------- *)
(** * What the specification says of change tracking *)

Module ChangeSpec.
Import ClockTime.

(** The members that [operator==] of [clock_time] reads agree. *)
Definition same_fields (a b : clock_time) : Prop :=
  id a = id b /\ year a = year b /\ month a = month b /\
  day a = day b /\ hour a = hour b /\ minute a = minute b.

(** No previous payload without a current one. *)
Definition prev_only_with_data {T : Type} (self : TypedFrame.t T) : Prop :=
  TypedFrame.data_ self = None -> TypedFrame.prev_data_ self = None.

End ChangeSpec.

(* ------------------------------------------------------------------------- *)
(** * Sample values *)

Module Samples.
Import ClockTime.

(** A marker pair to evaluate with. *)
Definition brackets : CS.markers :=
  {| CS.invert := "["; CS.invert_rst := "]" |}.

Definition clock (y mo d h mi : byte) : clock_time :=
  {| id := xcf; reserved1 := x00; reserved2 := x00; year := y;
     month := mo; day := d; hour := h; minute := mi;
     reserved3 := x00; reserved4 := x00 |}.

(** 0024/01/02 - 03:04 and 0024/01/02 - 03:05. *)
Definition clock_0304 : clock_time := clock x18 x01 x02 x03 x04.
Definition clock_0305 : clock_time := clock x18 x01 x02 x03 x05.

(** A minute counter of 10 and one of 100: the second text is one
    character longer. *)
Definition clock_min10 : clock_time := clock x00 x00 x00 x00 x0a.
Definition clock_min100 : clock_time := clock x00 x00 x00 x00 x64.

Definition empty_packet : Schema.hp_packetdata_t :=
  {| Schema.data := repeat x00 12; Schema.data_len := 0 |}.

Definition blank_frame : BaseFrame.t :=
  {| BaseFrame.packet := empty_packet;
     BaseFrame.transmitBitIndex := 0;
     BaseFrame.finalized := false;
     BaseFrame.source_ := BaseFrame.SOURCE_UNKNOWN;
     BaseFrame.frame_time_ms_ := 0%N;
     BaseFrame.frame_age_ms_ := 0%N;
     BaseFrame.type_id_ := 0;
     BaseFrame.byte_signature_ := Some x00;
     BaseFrame.prev_ := None |}.

Definition raw_frame (bytes : list byte) : BaseFrame.t :=
  BaseFrame.set_packet
    {| Schema.data := bytes; Schema.data_len := List.length bytes |}
    blank_frame.

Definition raw_clock_0304 : BaseFrame.t :=
  raw_frame [xcf; x00; x00; x18; x01; x02; x03; x04; x00; x00; x00; x00].

Definition raw_clock_0305 : BaseFrame.t :=
  raw_frame [xcf; x00; x00; x18; x01; x02; x03; x05; x00; x00; x00; x00].

(** As [raw_clock_0304] but for the reserved bytes. *)
Definition raw_clock_0304_reserved : BaseFrame.t :=
  raw_frame [xcf; x11; x22; x18; x01; x02; x03; x04; x33; x44; x00; x00].

(** A frame object whose current payload is 03:04 and whose previous one
    is 03:05. *)
Definition ticking_frame : TypedFrame.t clock_time :=
  {| TypedFrame.base := raw_clock_0304;
     TypedFrame.data_ := Some clock_0304;
     TypedFrame.prev_data_ := Some clock_0305 |}.

(** Fourteen bytes, two more than [blank_frame] holds. *)
Definition long_array : list byte :=
  [x01; x02; x03; x04; x05; x06; x07; x08; x09; x0a; x0b; x0c; x0d; x0e].

End Samples.

(* ------------------------------------------------------------------------- *)
(** * Decimal fields of a formatted text *)

Module Digits.

Definition is_digit (c : ascii) : bool :=
  let n := nat_of_ascii c in (48 <=? n)%nat && (n <=? 57)%nat.

Fixpoint all_digits (s : string) : bool :=
  match s with
  | EmptyString => true
  | String c s' => is_digit c && all_digits s'
  end.

(** The number a string of digits writes, read from the left. *)
Fixpoint to_num_from (acc : N) (s : string) : N :=
  match s with
  | EmptyString => acc
  | String c s' => to_num_from (acc * 10 + (N_of_ascii c - 48))%N s'
  end.

Definition to_num (s : string) : N := to_num_from 0%N s.

(** The width of a [uint8_t] written with [std::setw(2)]: three digits
    from 100 on. *)
Definition width2 (b : byte) : nat :=
  if (Byte.to_N b <? 100)%N then 2%nat else 3%nat.

End Digits.

(* ------------------------------------------------------------------------- *)
(** * Counting what the diff marks *)

Module DiffCount.

(** The indices, below the length of both texts, at which they differ. *)
Fixpoint mismatches (ref cur : string) : nat :=
  match ref, cur with
  | String r ref', String c cur' =>
      ((if Ascii.eqb r c then 0 else 1) + mismatches ref' cur')%nat
  | _, _ => O
  end.

(** The pair of empty markers. *)
Definition no_markers : CS.markers :=
  {| CS.invert := EmptyString; CS.invert_rst := EmptyString |}.

End DiffCount.

(* ------------------------------------------------------------------------- *)
(** * base_frame.h: construction from a byte array *)

Module Construct.
Import Schema.

(** [BaseFrame(const unsigned char (&base_data)[N]) : BaseFrame()]
    with the body [*this = base_data]; [BaseFrame()] is defined in
    [base_frame.cpp] and what it builds is the argument [blank]. *)
Definition BaseFrame_of_array (now : N) (blank : BaseFrame.t)
    (base_data : list byte) : BaseFrame.t :=
  BaseFrame.assign_array now blank base_data.

(** [DerivedFrameClass(const unsigned char (&cmdTrame)[N])]. *)
Definition of_array {type_name : Type}
    (as_type : hp_packetdata_t -> type_name) (now : N)
    (blank : BaseFrame.t) (cmdTrame : list byte) : TypedFrame.t type_name :=
  let self :=
    {| TypedFrame.base := BaseFrame_of_array now blank cmdTrame;
       TypedFrame.data_ := None;
       TypedFrame.prev_data_ := None |} in
  {| TypedFrame.base := TypedFrame.base self;
     TypedFrame.data_ :=
       Some (as_type (BaseFrame.packet (TypedFrame.base self)));
     TypedFrame.prev_data_ := TypedFrame.prev_data_ self |}.

End Construct.

(* ------------------------------------------------------------------------- *)
(** * Sequences of stage and transfer *)

Module Cycle.

(** Whether [ops] holds a [Transfer] that comes after a [Stage]; [staged]
    tells whether a [Stage] has been seen already. *)
Fixpoint transfer_after_stage (staged : bool) (ops : list TypedFrame.op)
    : bool :=
  match ops with
  | [] => false
  | TypedFrame.Stage _ :: rest => transfer_after_stage true rest
  | TypedFrame.Transfer :: rest =>
      staged || transfer_after_stage staged rest
  end.

Fixpoint has_stage (ops : list TypedFrame.op) : bool :=
  match ops with
  | [] => false
  | TypedFrame.Stage _ :: _ => true
  | TypedFrame.Transfer :: rest => has_stage rest
  end.

End Cycle.

(* ------------------------------------------------------------------------- *)
(** * More sample values *)

Module CycleSamples.
Import ClockTime Samples.

(** 0024/01/02 - 03:04 under another id. *)
Definition clock_0304_other_id : clock_time :=
  {| id := x81; reserved1 := x00; reserved2 := x00; year := x18;
     month := x01; day := x02; hour := x03; minute := x04;
     reserved3 := x00; reserved4 := x00 |}.

(** A frame object whose previous payload has another id than the current
    one and the same counters. *)
Definition renamed_frame : TypedFrame.t clock_time :=
  {| TypedFrame.base := blank_frame;
     TypedFrame.data_ := Some clock_0304;
     TypedFrame.prev_data_ := Some clock_0304_other_id |}.

(** Five bytes and eight bytes. *)
Definition short_array : list byte := [xa1; xa2; xa3; xa4; xa5].
Definition mid_array : list byte :=
  [xb1; xb2; xb3; xb4; xb5; xb6; xb7; xb8].

End CycleSamples.

(* ------------------------------------------------------------------------- *)
(** * <ctime>: std::mktime *)

Module StdTime.
Import CTime.

Definition is_leap (y : Z) : bool :=
  ((y mod 4 =? 0) && (negb (y mod 100 =? 0) || (y mod 400 =? 0)))%Z.

(** The days from 1 January 1970 to 1 January of the year [y]. *)
Definition days_to_year (y : Z) : Z :=
  (365 * (y - 1970)
   + ((y - 1) / 4 - (y - 1) / 100 + (y - 1) / 400) - 477)%Z.

(** The days from 1 January to the first of the month [m], January
    being 0. *)
Definition days_to_month (leap : bool) (m : Z) : Z :=
  (nth (Z.to_nat m)
     [0; 31; 59; 90; 120; 151; 181; 212; 243; 273; 304; 334] 0
   + (if leap && (2 <=? m) then 1 else 0))%Z.

(** [std::mktime] of the C library as ISO C and POSIX describe it, for a
    [time_t] wide enough and a local time that stays [utc_offset] seconds
    ahead of UTC ([tm_isdst] is 0 in all calls here): [tm_year] counts the
    years from 1900 and [tm_mon] the months from January, [tm_wday] and
    [tm_yday] are not read, a member out of its range carries over into
    the next one, and the result is the number of seconds since
    1 January 1970, 00:00 UTC. *)
Definition mktime (utc_offset : Z) (t : tm) : time_t :=
  (let y := 1900 + tm_year t + tm_mon t / 12 in
   let m := tm_mon t mod 12 in
   let days := days_to_year y + days_to_month (is_leap y) m
               + (tm_mday t - 1) in
   86400 * days + 3600 * tm_hour t + 60 * tm_min t + tm_sec t
   - utc_offset)%Z.

End StdTime.

(* ------------------------------------------------------------------------- *)
(** * What the specification says of the time that parse stores *)

Module ParseSpec.
Import Schema CTime ClockTime.

(** The time stored is made of the raw counters as they are, with no
    calendar reading: payloads whose counters differ store different
    times. *)
Definition counters_stored_as_they_are (mktime : tm -> time_t) : Prop :=
  forall (self other : FrameClock.t) (cur cur' : clock_time)
         (hp_data : heat_pump_data_t unit),
    TypedFrame.data_ self = Some cur ->
    TypedFrame.data_ other = Some cur' ->
    time (FrameClock.parse mktime self hp_data)
    = time (FrameClock.parse mktime other hp_data) ->
    year cur = year cur' /\ month cur = month cur' /\ day cur = day cur' /\
    hour cur = hour cur' /\ minute cur = minute cur'.

(** A frame object with [c] as current payload and no previous one. *)
Definition holding (c : clock_time) : FrameClock.t :=
  {| TypedFrame.base := Samples.blank_frame;
     TypedFrame.data_ := Some c;
     TypedFrame.prev_data_ := None |}.

(** Year counter 24, month counter 0, day counter 32, and year counter 24,
    month counter 1, day counter 1, both at 03:04. *)
Definition clock_month0_day32 : clock_time :=
  Samples.clock x18 x00 x20 x03 x04.
Definition clock_month1_day1 : clock_time :=
  Samples.clock x18 x01 x01 x03 x04.

(** Year counter 70, month counter 0, day counter 1, at 00:00. *)
Definition clock_70_0_1 : clock_time := Samples.clock x46 x00 x01 x00 x00.

Definition blank_state : heat_pump_data_t unit :=
  {| time := 0%Z; others := tt |}.

End ParseSpec.

(* ------------------------------------------------------------------------- *)
(** * Strings *)

Section StringFacts.
Import Stream DiffSpec.

Lemma append_assoc (a b c : string) : (a ++ b) ++ c = a ++ (b ++ c).
Proof.
  induction a as [|x a IH]; simpl; [reflexivity | now rewrite IH].
Qed.

Lemma append_nil_r (a : string) : a ++ "" = a.
Proof.
  induction a as [|x a IH]; simpl; [reflexivity | now rewrite IH].
Qed.

Lemma char_at_S (c : ascii) (s : string) (i : nat) :
  char_at (String c s) (S i) = char_at s i.
Proof. reflexivity. Qed.

Lemma cat_map_ext (f g : nat -> string) (l : list nat) :
  (forall i, In i l -> f i = g i) -> cat_map f l = cat_map g l.
Proof.
  induction l as [|i l IH]; intros Hfg; simpl; [reflexivity|].
  rewrite (Hfg i (or_introl eq_refl)), IH; [reflexivity|].
  intros j Hj. apply Hfg. now right.
Qed.

Lemma cat_map_shift (f : nat -> string) (l : list nat) :
  cat_map f (map S l) = cat_map (fun i => f (S i)) l.
Proof.
  induction l as [|i l IH]; simpl; [reflexivity | now rewrite IH].
Qed.

Lemma cat_map_seq_S (f : nat -> string) (n : nat) :
  cat_map f (seq 0 (S n)) = f 0%nat ++ cat_map (fun i => f (S i)) (seq 0 n).
Proof.
  simpl. now rewrite <- seq_shift, cat_map_shift.
Qed.

Lemma substr_drop (s : string) (n : nat) : substr s n = drop n s.
Proof.
  unfold substr. revert n.
  induction s as [|c s IH]; intros [|n]; simpl; try reflexivity.
  - f_equal. specialize (IH 0%nat). simpl in IH.
    now rewrite Nat.sub_0_r in IH.
  - apply IH.
Qed.

Lemma drop_length (s : string) : drop (String.length s) s = "".
Proof. induction s as [|c s IH]; simpl; [reflexivity | exact IH]. Qed.

Lemma drop_beyond (s : string) (n : nat) :
  String.length s <= n -> drop n s = "".
Proof.
  revert n. induction s as [|c s IH]; intros [|n] H; simpl in *;
    try reflexivity; try lia.
  apply IH. lia.
Qed.

End StringFacts.

(* ------------------------------------------------------------------------- *)
(** * clock_time::diff *)

Section DiffFacts.
Import Stream DiffSpec ClockTime.

Variables inv rst : string.

Lemma diff_step_buf (ref cur : string) (cs : CS.t) (i : nat) :
  CS.buf (diff_step inv rst ref cur cs i) = CS.buf cs ++ turn inv rst ref cur i.
Proof.
  unfold diff_step, turn, emit.
  destruct (negb (Ascii.eqb (char_at ref i) (char_at cur i))); simpl;
    [now rewrite !append_assoc | reflexivity].
Qed.

Lemma diff_loop_buf (ref cur : string) (l : list nat) (cs : CS.t) :
  CS.buf (fold_left (diff_step inv rst ref cur) l cs)
  = CS.buf cs ++ cat_map (turn inv rst ref cur) l.
Proof.
  revert cs. induction l as [|i l IH]; intros cs; simpl.
  - now rewrite append_nil_r.
  - now rewrite IH, diff_step_buf, append_assoc.
Qed.

Lemma turns_walk (ref cur : string) :
  cat_map (turn inv rst ref cur)
    (seq 0 (Nat.min (String.length ref) (String.length cur)))
  = walk inv rst ref cur.
Proof.
  revert cur. induction ref as [|r ref IH]; intros [|c cur];
    try reflexivity.
  change (Nat.min (String.length (String r ref))
                  (String.length (String c cur)))
    with (S (Nat.min (String.length ref) (String.length cur))).
  rewrite cat_map_seq_S. cbn [walk]. f_equal. apply IH.
Qed.

Lemma walk_same (s : string) : walk inv rst s s = s.
Proof.
  induction s as [|c s IH]; simpl; [reflexivity|].
  now rewrite Ascii.eqb_refl, IH.
Qed.

Lemma plain_turns (s : string) :
  cat_map (fun i => of_char (char_at s i)) (seq 0 (String.length s)) = s.
Proof.
  induction s as [|c s IH]; [reflexivity|].
  cbn [String.length]. rewrite cat_map_seq_S. simpl. f_equal. exact IH.
Qed.

(** The walk followed by what is left of the current text is the current
    text with its differing characters marked. *)
Lemma walk_drop_marks (ref cur : string) :
  walk inv rst ref cur ++ drop (String.length ref) cur
  = cat_map (fun i => emit inv rst (differs_at ref cur i) (char_at cur i))
      (seq 0 (String.length cur)).
Proof.
  revert ref. induction cur as [|c cur IH]; intros [|r ref];
    try reflexivity.
  - cbn [walk String.length drop append].
    rewrite <- (plain_turns (String c cur)) at 1. cbn [String.length].
    apply cat_map_ext. intros i _. unfold differs_at. now simpl.
  - cbn [walk String.length drop]. rewrite append_assoc, IH.
    rewrite cat_map_seq_S. reflexivity.
Qed.

End DiffFacts.

Section DiffText.
Import Stream DiffSpec ClockTime.

Variable m : CS.markers.

Lemma common_length (ref cur : string) :
  (if Nat.ltb (String.length ref) (String.length cur)
   then String.length ref else String.length cur)
  = Nat.min (String.length ref) (String.length cur).
Proof.
  destruct (Nat.ltb_spec (String.length ref) (String.length cur)); lia.
Qed.

(** [diff] writes the walk, then what the current text has past the
    length of the reference, then the separator. *)
Lemma diff_text_walk (ref cur separator : string) :
  diff_text m ref cur separator
  = walk (CS.invert m) (CS.invert_rst m) ref cur
      ++ drop (String.length ref) cur ++ separator.
Proof.
  unfold diff_text. rewrite common_length.
  destruct (String.eqb_spec ref cur) as [Heq|Hne]; cbn [negb];
    destruct (Nat.ltb_spec (Nat.min (String.length ref) (String.length cur))
                           (String.length cur)) as [Hlt|Hge];
    unfold CS.str; cbn [CS.put CS.buf]; rewrite diff_loop_buf;
    cbn [CS.set_changed_base_color CS.new CS.buf append];
    rewrite turns_walk.
  - subst ref. lia.
  - subst ref. now rewrite !walk_same, drop_length.
  - rewrite substr_drop, append_assoc.
    replace (Nat.min (String.length ref) (String.length cur))
      with (String.length ref) by lia.
    reflexivity.
  - rewrite (drop_beyond cur (String.length ref)) by lia. reflexivity.
Qed.

Lemma diff_text_highlighted (ref cur : string) :
  diff_text m ref cur "" = highlighted m ref cur.
Proof.
  rewrite diff_text_walk, append_nil_r. apply walk_drop_marks.
Qed.

Lemma diff_text_same (s : string) : diff_text m s s "" = s.
Proof.
  rewrite diff_text_walk, walk_same, drop_length. now rewrite !append_nil_r.
Qed.

End DiffText.

(* ------------------------------------------------------------------------- *)
(** * clock_time: equality and size *)

Section ClockTimeFacts.
Import ClockTime ChangeSpec.

Lemma byte_eqb_eq (a b : byte) : Byte.eqb a b = true <-> a = b.
Proof.
  split; [apply Byte.byte_dec_bl | apply Byte.byte_dec_lb].
Qed.

Lemma eqb_same_fields (a b : clock_time) :
  eqb a b = true <-> same_fields a b.
Proof.
  unfold eqb, same_fields.
  rewrite !andb_true_iff, !byte_eqb_eq. tauto.
Qed.

Lemma neqb_same_fields (a b : clock_time) :
  neqb a b = false <-> same_fields a b.
Proof.
  unfold neqb. rewrite negb_false_iff. apply eqb_same_fields.
Qed.

Lemma neqb_refl (a : clock_time) : neqb a a = false.
Proof. apply neqb_same_fields. repeat split. Qed.

End ClockTimeFacts.

(* ------------------------------------------------------------------------- *)
(** * The typed frame: stage, transfer, is_changed *)

Section TypedFrameFacts.
Import Schema TypedFrame ChangeSpec.

Variable type_name : Type.
Variable as_type : hp_packetdata_t -> type_name.
Variable neqb : type_name -> type_name -> bool.

Lemma stage_data (self : t type_name) (b : BaseFrame.t) :
  data_ (stage as_type self b) = Some (as_type (BaseFrame.packet b)).
Proof. reflexivity. Qed.

Lemma stage_prev_data (self : t type_name) (b : BaseFrame.t) :
  prev_data_ (stage as_type self b) = prev_data_ self.
Proof. reflexivity. Qed.

Lemma transfer_data (self : t type_name) :
  data_ (transfer self) = data_ self.
Proof. destruct self as [b [d|] p]; reflexivity. Qed.

Lemma transfer_base (self : t type_name) :
  base (transfer self) = base self.
Proof. destruct self as [b [d|] p]; reflexivity. Qed.

Lemma transfer_prev_data (self : t type_name) :
  prev_data_ (transfer self)
  = match data_ self with
    | Some d => Some d
    | None => prev_data_ self
    end.
Proof. destruct self as [b [d|] p]; reflexivity. Qed.

Lemma is_changed_cases (self : t type_name) :
  is_changed neqb self
  = match prev_data_ self, data_ self with
    | Some prev, Some cur => neqb cur prev
    | _, _ => true
    end.
Proof. destruct self as [b [d|] [p|]]; reflexivity. Qed.

Lemma run_op_keeps (self : t type_name) (o : op) :
  prev_only_with_data self -> prev_only_with_data (run_op as_type self o).
Proof.
  unfold prev_only_with_data. intros Hinv. destruct o as [b|]; simpl.
  - discriminate.
  - rewrite transfer_data, transfer_prev_data.
    intros Hnone. rewrite Hnone. now apply Hinv.
Qed.

Lemma run_keeps (ops : list op) (self : t type_name) :
  prev_only_with_data self -> prev_only_with_data (run as_type self ops).
Proof.
  revert self. induction ops as [|o ops IH]; intros self Hinv; simpl.
  - exact Hinv.
  - apply IH. now apply run_op_keeps.
Qed.

Lemma run_new_keeps (b : BaseFrame.t) (ops : list op) :
  prev_only_with_data (run as_type (new b) ops).
Proof. apply run_keeps. intros _. reflexivity. Qed.

End TypedFrameFacts.

(* ------------------------------------------------------------------------- *)
(** * Change tracking *)

Section ChangeTracking.
Import Schema ClockTime ChangeSpec Samples.

(** C1: [is_changed()] of a typed frame is true when the previous payload
    or the current one is absent, and otherwise is [current != previous];
    for the Clock payload [!=] is the negation of [==], which holds
    exactly when id, year, month, day, hour and minute agree, whatever
    the reserved bytes. A frame just constructed reports a change; after
    stage, transfer and stage of a payload with the same members it
    reports none; after a stage whose payload differs from the previous
    one in one of these members it reports a change. *)
Theorem is_changed_field_wise :
  (forall (T : Type) (neqb : T -> T -> bool) (self : TypedFrame.t T),
      TypedFrame.is_changed neqb self
      = match TypedFrame.prev_data_ self, TypedFrame.data_ self with
        | Some prev, Some cur => neqb cur prev
        | _, _ => true
        end) /\
  (forall a b : clock_time,
      neqb a b = negb (eqb a b) /\ (eqb a b = true <-> same_fields a b)) /\
  (forall (T : Type) (neqb : T -> T -> bool) (b : BaseFrame.t),
      TypedFrame.is_changed neqb (TypedFrame.new b) = true) /\
  (forall as_type self b1 b2,
      same_fields (as_type (BaseFrame.packet b2))
                  (as_type (BaseFrame.packet b1)) ->
      FrameClock.is_changed
        (FrameClock.stage as_type
           (FrameClock.transfer (FrameClock.stage as_type self b1)) b2)
      = false) /\
  (forall as_type self b prev,
      TypedFrame.prev_data_ self = Some prev ->
      ~ same_fields (as_type (BaseFrame.packet b)) prev ->
      FrameClock.is_changed (FrameClock.stage as_type self b) = true).
Proof.
  split; [|split; [|split; [|split]]].
  - intros T ne self. apply is_changed_cases.
  - intros a b. split; [reflexivity | apply eqb_same_fields].
  - reflexivity.
  - intros as_type self b1 b2 Hsame.
    unfold FrameClock.is_changed, FrameClock.stage, FrameClock.transfer.
    rewrite is_changed_cases, stage_prev_data, transfer_prev_data.
    rewrite !stage_data. now apply neqb_same_fields.
  - intros as_type self b prev Hprev Hdiff.
    unfold FrameClock.is_changed, FrameClock.stage.
    rewrite is_changed_cases, stage_prev_data, Hprev, stage_data.
    destruct (neqb (as_type (BaseFrame.packet b)) prev) eqn:E;
      [reflexivity|].
    now apply neqb_same_fields in E.
Qed.

Lemma is_changed_field_wise_witness :
  same_fields (as_clock_time (BaseFrame.packet raw_clock_0304_reserved))
              (as_clock_time (BaseFrame.packet raw_clock_0304)) /\
  FrameClock.is_changed
    (FrameClock.stage as_clock_time
       (FrameClock.transfer
          (FrameClock.stage as_clock_time (TypedFrame.new blank_frame)
             raw_clock_0304))
       raw_clock_0304_reserved)
  = false /\
  FrameClock.is_changed
    (FrameClock.stage as_clock_time
       (FrameClock.transfer
          (FrameClock.stage as_clock_time (TypedFrame.new blank_frame)
             raw_clock_0304))
       raw_clock_0305)
  = true.
Proof.
  destruct is_changed_field_wise as (_ & _ & _ & Hsame & Hdiff).
  split; [|split].
  - repeat split.
  - apply Hsame. repeat split.
  - apply (Hdiff as_clock_time _ raw_clock_0305 clock_0304).
    + reflexivity.
    + intros (_ & _ & _ & _ & _ & Hminute). discriminate Hminute.
Defined.

(** C6: on a typed frame object built by its constructor, from nothing or
    from a byte array, and driven by calls of [stage] and [transfer],
    after [transfer()] the previous payload is the payload that was
    current immediately before the call, and the current payload is what
    it was. This covers the object without a current payload: it has no
    previous payload either, and has none after the call. *)
Theorem transfer_previous_is_former_current :
  forall (T : Type) (as_type : hp_packetdata_t -> T),
    (forall (b : BaseFrame.t) (ops : list TypedFrame.op),
        let self := TypedFrame.run as_type (TypedFrame.new b) ops in
        TypedFrame.prev_data_ (TypedFrame.transfer self)
        = TypedFrame.data_ self /\
        TypedFrame.data_ (TypedFrame.transfer self)
        = TypedFrame.data_ self /\
        (TypedFrame.data_ self = None ->
         TypedFrame.prev_data_ (TypedFrame.transfer self) = None)) /\
    (forall (now : N) (blank : BaseFrame.t) (cmdTrame : list byte)
            (ops : list TypedFrame.op),
        let self :=
          TypedFrame.run as_type
            (Construct.of_array as_type now blank cmdTrame) ops in
        TypedFrame.prev_data_ (TypedFrame.transfer self)
        = TypedFrame.data_ self /\
        TypedFrame.data_ (TypedFrame.transfer self)
        = TypedFrame.data_ self).
Proof.
intros T as_type.
assert (Hkept : forall self : TypedFrame.t T,
           prev_only_with_data self ->
           TypedFrame.prev_data_ (TypedFrame.transfer self)
           = TypedFrame.data_ self).
{ intros self Hinv. rewrite transfer_prev_data.
  unfold prev_only_with_data in Hinv.
  destruct (TypedFrame.data_ self); [reflexivity | now apply Hinv]. }
split.
- intros b ops self.
  pose proof (run_new_keeps T as_type b ops) as Hinv. fold self in Hinv.
  split; [now apply Hkept | split; [apply transfer_data|]].
  intros Hnone. rewrite (Hkept self Hinv). exact Hnone.
- intros now blank cmdTrame ops self.
  split; [|apply transfer_data]. apply Hkept. unfold self.
  apply run_keeps. intros Hnone. discriminate Hnone.
Qed.

Lemma transfer_previous_is_former_current_witness :
  TypedFrame.prev_data_
    (TypedFrame.transfer
       (TypedFrame.run as_clock_time (TypedFrame.new blank_frame)
          [TypedFrame.Transfer; TypedFrame.Transfer]))
  = None.
Proof.
destruct (transfer_previous_is_former_current clock_time as_clock_time)
  as (Hnew & _).
destruct (Hnew blank_frame [TypedFrame.Transfer; TypedFrame.Transfer])
  as (_ & _ & Habsent).
apply Habsent. reflexivity.
Defined.

(** C7: [stage(base)] leaves the frame object with the raw bytes and the
    length of [base], with the payload decoded from these bytes as the
    current payload, and with the previous payload it had. *)
Theorem stage_replaces_current :
  forall (T : Type) (as_type : hp_packetdata_t -> T)
         (self : TypedFrame.t T) (b : BaseFrame.t),
    BaseFrame.packet (TypedFrame.base (TypedFrame.stage as_type self b))
    = BaseFrame.packet b /\
    TypedFrame.data_ (TypedFrame.stage as_type self b)
    = Some (as_type (BaseFrame.packet b)) /\
    TypedFrame.prev_data_ (TypedFrame.stage as_type self b)
    = TypedFrame.prev_data_ self.
Proof. intros. repeat split. Qed.

(** C9: [control(call)] of the Clock frame returns no frame and leaves
    the frame object, current and previous payload included, as it was. *)
Theorem control_read_only :
  forall (HWPCall : Type) (self : FrameClock.t) (call : HWPCall),
    snd (FrameClock.control self call) = None /\
    fst (FrameClock.control self call) = self /\
    TypedFrame.data_ (fst (FrameClock.control self call))
    = TypedFrame.data_ self /\
    TypedFrame.prev_data_ (fst (FrameClock.control self call))
    = TypedFrame.prev_data_ self.
Proof. intros. repeat split. Qed.

End ChangeTracking.

(* ------------------------------------------------------------------------- *)
(** * The Clock payload: size and projection *)

Section ClockPayload.
Import Schema CTime ClockTime Samples.

(** C3, as it is worded: the struct is not 8 bytes long, and its size
    assertion does not hold for a frame length of 10. *)
Lemma clock_payload_size_counterexample :
  ~ (sizeof_clock_time_t = 8%nat /\ static_assert_size 10 = true).
Proof. intros [Hsize _]. discriminate Hsize. Qed.

(** C3: the Clock payload struct is 10 bytes long, one for each of its ten
    members, the id byte first; the static assertion compares this size
    with the declared frame length less 2, and holds exactly when that
    length is 12. *)
Theorem clock_payload_size :
  sizeof_clock_time_t = 10%nat /\
  (forall c : clock_time, List.length (bytes_of c) = sizeof_clock_time_t) /\
  (forall c : clock_time, nth 0 (bytes_of c) x00 = id c) /\
  (forall frame_data_length : Z,
      static_assert_size frame_data_length = true
      <-> frame_data_length = 12%Z).
Proof.
  repeat split; try reflexivity.
  - unfold static_assert_size. intros H. apply Z.eqb_eq in H.
    change (Z.of_nat sizeof_clock_time_t) with 10%Z in H. lia.
  - intros ->. reflexivity.
Qed.

(** With a current payload, [parse] stores in the member [time] of the
    domain state what [mktime] gives for the broken-down time whose year,
    month, day of month, hour and minute are the five counters of the
    payload as they are, and whose other members are 0; the rest of the
    domain state is kept. Without a current payload the domain state comes
    back as it was. *)
Lemma parse_feeds_raw_counters :
  forall (Others : Type) (mktime : tm -> time_t) (self : FrameClock.t)
         (hp_data : heat_pump_data_t Others),
    FrameClock.parse mktime self hp_data
    = match TypedFrame.data_ self with
      | Some d =>
          {| time :=
               mktime {| tm_sec := 0;
                         tm_min := Z.of_N (Byte.to_N (minute d));
                         tm_hour := Z.of_N (Byte.to_N (hour d));
                         tm_mday := Z.of_N (Byte.to_N (day d));
                         tm_mon := Z.of_N (Byte.to_N (month d));
                         tm_year := Z.of_N (Byte.to_N (year d));
                         tm_wday := 0; tm_yday := 0; tm_isdst := 0 |};
             others := others hp_data |}
      | None => hp_data
      end.
Proof.
  intros Others mktime [b [d|] p] hp_data; reflexivity.
Qed.

(** C2, as it is worded: under [std::mktime] the time stored is a calendar
    reading of the counters, not the counters as they are. Year counter
    70, month counter 0 and day counter 1 at 00:00 are stored as second 0
    of the epoch, and the day counter 32 of month counter 0 is stored as
    the day counter 1 of month counter 1 is, whatever the time zone. *)
Lemma parse_calendar_reading_counterexample :
  time (FrameClock.parse (StdTime.mktime 0) (ParseSpec.holding
                                               ParseSpec.clock_70_0_1)
          ParseSpec.blank_state) = 0%Z /\
  (forall utc_offset : Z,
      time (FrameClock.parse (StdTime.mktime utc_offset)
              (ParseSpec.holding ParseSpec.clock_month0_day32)
              ParseSpec.blank_state)
      = time (FrameClock.parse (StdTime.mktime utc_offset)
                (ParseSpec.holding ParseSpec.clock_month1_day1)
                ParseSpec.blank_state)) /\
  ~ ParseSpec.counters_stored_as_they_are (StdTime.mktime 0).
Proof.
split; [reflexivity | split; [reflexivity|]].
intros Hkept.
destruct (Hkept (ParseSpec.holding ParseSpec.clock_month0_day32)
            (ParseSpec.holding ParseSpec.clock_month1_day1)
            ParseSpec.clock_month0_day32 ParseSpec.clock_month1_day1
            ParseSpec.blank_state eq_refl eq_refl eq_refl)
  as (_ & Hmonth & _).
discriminate Hmonth.
Qed.

(** C2: with a current payload, [parse] stores in the member [time] of
    the domain state what [std::mktime] returns for the broken-down time
    whose year, month, day of month, hour and minute are the five counters
    of the payload as they are, with no offset applied before the call,
    and whose other members are 0; the rest of the domain state is kept.
    [std::mktime] reads these members by the calendar: the year counter as
    years from 1900, the month counter as months from January, twelve
    months carried into the year and days past the end of a month into the
    next, and the time stored is the number of seconds from the epoch.
    Without a current payload the domain state comes back as it was. *)
Theorem parse_stores_calendar_time :
  forall (Others : Type) (self : FrameClock.t)
         (hp_data : heat_pump_data_t Others),
    (forall mktime : tm -> time_t,
        FrameClock.parse mktime self hp_data
        = match TypedFrame.data_ self with
          | Some d =>
              {| time :=
                   mktime {| tm_sec := 0;
                             tm_min := Z.of_N (Byte.to_N (minute d));
                             tm_hour := Z.of_N (Byte.to_N (hour d));
                             tm_mday := Z.of_N (Byte.to_N (day d));
                             tm_mon := Z.of_N (Byte.to_N (month d));
                             tm_year := Z.of_N (Byte.to_N (year d));
                             tm_wday := 0; tm_yday := 0; tm_isdst := 0 |};
                 others := others hp_data |}
          | None => hp_data
          end) /\
    (forall (utc_offset : Z) (d : clock_time),
        TypedFrame.data_ self = Some d ->
        let y := (1900 + to_int (year d) + to_int (month d) / 12)%Z in
        let m := (to_int (month d) mod 12)%Z in
        time (FrameClock.parse (StdTime.mktime utc_offset) self hp_data)
        = (86400 * (StdTime.days_to_year y
                    + StdTime.days_to_month (StdTime.is_leap y) m
                    + (to_int (day d) - 1))
           + 3600 * to_int (hour d) + 60 * to_int (minute d)
           - utc_offset)%Z /\
        others (FrameClock.parse (StdTime.mktime utc_offset) self hp_data)
        = others hp_data) /\
    (TypedFrame.data_ self = None ->
     forall mktime : tm -> time_t,
       FrameClock.parse mktime self hp_data = hp_data).
Proof.
intros Others self hp_data. split; [|split].
- intros mktime. apply parse_feeds_raw_counters.
- intros utc_offset d Hd y m. rewrite parse_feeds_raw_counters, Hd.
  cbn [time others]. unfold StdTime.mktime.
  cbn [tm_sec tm_min tm_hour tm_mday tm_mon tm_year].
  fold (to_int (year d)) (to_int (month d)) (to_int (day d))
       (to_int (hour d)) (to_int (minute d)).
  fold y. fold m. split; [lia | reflexivity].
- intros Hnone mktime. rewrite parse_feeds_raw_counters, Hnone. reflexivity.
Qed.

Lemma parse_stores_calendar_time_witness :
  time (FrameClock.parse (StdTime.mktime 0) ticking_frame
          ParseSpec.blank_state)
  = (-1448916960)%Z.
Proof.
destruct (parse_stores_calendar_time unit ticking_frame
            ParseSpec.blank_state) as (_ & Hstd & _).
destruct (Hstd 0%Z clock_0304 eq_refl) as (Htime & _).
rewrite Htime. reflexivity.
Defined.

End ClockPayload.

(* ------------------------------------------------------------------------- *)
(** * The frame buffer *)

Section FrameBuffer.
Import Schema BaseFrame Samples.

Lemma memcpy_length (dst src : list byte) (n : nat) :
  n <= List.length src -> n <= List.length dst ->
  List.length (memcpy dst src n) = List.length dst.
Proof.
  intros Hsrc Hdst. unfold memcpy.
  rewrite length_app, length_firstn, length_skipn. lia.
Qed.

Lemma memcpy_prefix (dst src : list byte) (n : nat) :
  n <= List.length src -> firstn n (memcpy dst src n) = firstn n src.
Proof.
  intros Hsrc. unfold memcpy.
  rewrite firstn_app, length_firstn, Nat.min_l by exact Hsrc.
  rewrite Nat.sub_diag, firstn_O, app_nil_r.
  apply firstn_all2. rewrite length_firstn. lia.
Qed.

Lemma memcpy_suffix (dst src : list byte) (n : nat) :
  n <= List.length src -> skipn n (memcpy dst src n) = skipn n dst.
Proof.
  intros Hsrc. unfold memcpy.
  rewrite skipn_app, length_firstn, Nat.min_l by exact Hsrc.
  rewrite Nat.sub_diag, skipn_O.
  rewrite (skipn_all2 (firstn n src)) by (rewrite length_firstn; lia).
  reflexivity.
Qed.

(** C8: after the assignment of a byte array the length is at most the
    capacity of the buffer, which stays what it was. An array no longer
    than the capacity is copied whole and the length is its size; of a
    longer one the first bytes are copied, as many as the buffer holds,
    and the length is the capacity. The bytes of the buffer past the
    length are not written. *)
Theorem assign_array_clamps :
  forall (now : N) (self : BaseFrame.t) (base_data : list byte),
    let capacity := sizeof_data (packet self) in
    let result := assign_array now self base_data in
    data_len (packet result) <= capacity /\
    sizeof_data (packet result) = capacity /\
    (List.length base_data <= capacity ->
     data_len (packet result) = List.length base_data /\
     firstn (data_len (packet result)) (data (packet result))
     = base_data) /\
    (capacity < List.length base_data ->
     data_len (packet result) = capacity /\
     data (packet result) = firstn capacity base_data) /\
    skipn (data_len (packet result)) (data (packet result))
    = skipn (data_len (packet result)) (data (packet self)).
Proof.
  intros now self base_data capacity result.
  unfold result, assign_array, capacity, sizeof_data.
  cbn [set_frame_time_ms set_packet packet data data_len].
  destruct (Nat.leb_spec (List.length base_data)
              (List.length (data (packet self)))) as [Hle|Hgt].
  - repeat split.
    + exact Hle.
    + now apply memcpy_length.
    + rewrite memcpy_prefix by lia. now apply firstn_all2.
    + lia.
    + lia.
    + now apply memcpy_suffix.
  - repeat split.
    + lia.
    + apply memcpy_length; lia.
    + lia.
    + lia.
    + unfold memcpy. rewrite skipn_all, app_nil_r. reflexivity.
    + apply memcpy_suffix. lia.
Qed.

Lemma assign_array_clamps_witness :
  data_len (packet (assign_array 7%N blank_frame long_array)) = 12 /\
  data (packet (assign_array 7%N blank_frame long_array))
  = firstn 12 long_array.
Proof.
  destruct (assign_array_clamps 7%N blank_frame long_array)
    as (_ & _ & _ & Hlong & _).
  apply Hlong. vm_compute. lia.
Defined.

End FrameBuffer.

(* ------------------------------------------------------------------------- *)
(** * Formatting *)

Section Formatting.
Import Stream DiffSpec ClockTime Samples.

(** C4, as it is worded, fails when the reference is the longer text: for
    a minute counter of 10 against one of 100 the diff is the current
    text, without the last character of the reference. *)
Lemma diff_reference_longer_counterexample :
  diff brackets clock_min10 clock_min100 "" = "0000/00/00 - 00:10" /\
  diff_as_specified brackets (format clock_min100) (format clock_min10) ""
  = "0000/00/00 - 00:100" /\
  ~ appends_longer_remainder brackets
      (format clock_min100) (format clock_min10) "".
Proof.
  split; [reflexivity | split; [reflexivity|]].
  intros H. assert (Hlen : String.length (format clock_min100)
                           <> String.length (format clock_min10))
    by (vm_compute; discriminate).
  specialize (H Hlen). vm_compute in H. discriminate H.
Qed.

(** C4: when the two texts differ in length, the diff is the walk over
    their common length, then the remainder of the current text,
    unmarked, when the current text is the longer one, and nothing of the
    reference when the reference is; the separator comes last. *)
Theorem diff_appends_current_remainder :
  forall (m : CS.markers) (ref cur separator : string),
    String.length ref <> String.length cur ->
    diff_text m ref cur separator
    = walk (CS.invert m) (CS.invert_rst m) ref cur
        ++ (if Nat.ltb (String.length ref) (String.length cur)
            then drop (String.length ref) cur
            else "")
        ++ separator.
Proof.
  intros m ref cur separator _. rewrite diff_text_walk.
  destruct (Nat.ltb_spec (String.length ref) (String.length cur));
    [reflexivity|].
  now rewrite drop_beyond.
Qed.

Lemma diff_appends_current_remainder_witness :
  String.length (format clock_min10) <> String.length (format clock_min100)
  /\ diff brackets clock_min100 clock_min10 "" = "0000/00/00 - 00:100".
Proof.
  split; [vm_compute; discriminate|].
  unfold diff.
  rewrite (diff_appends_current_remainder brackets
             (format clock_min10) (format clock_min100) "");
    [reflexivity | vm_compute; discriminate].
Defined.

(** C5: with a current payload, [format(true)] is the formatted current
    value, and so is [format(false)] without a previous payload; with a
    previous payload [format(false)] is the formatted current value in
    which a character stands between the two markers exactly when the
    formatted previous value has another character at its place, and
    stands alone otherwise. Of 2024/01/02 - 03:04 against
    2024/01/02 - 03:05 only the last character is marked. *)
Theorem format_marks_differing_characters :
  forall (m : CS.markers),
    (forall (self : FrameClock.t) (cur : clock_time),
        TypedFrame.data_ self = Some cur ->
        FrameClock.format m self true = format cur /\
        (TypedFrame.prev_data_ self = None ->
         FrameClock.format m self false = format cur) /\
        (forall prev, TypedFrame.prev_data_ self = Some prev ->
           FrameClock.format m self false
           = highlighted m (format prev) (format cur))) /\
    highlighted m "2024/01/02 - 03:05" "2024/01/02 - 03:04"
    = "2024/01/02 - 03:0" ++ CS.invert m ++ "4" ++ CS.invert_rst m /\
    diff_text m "2024/01/02 - 03:05" "2024/01/02 - 03:04" ""
    = "2024/01/02 - 03:0" ++ CS.invert m ++ "4" ++ CS.invert_rst m /\
    FrameClock.format m ticking_frame false
    = "0024/01/02 - 03:0" ++ CS.invert m ++ "4" ++ CS.invert_rst m /\
    FrameClock.format m ticking_frame true = "0024/01/02 - 03:04".
Proof.
  intros m.
  assert (Hmark : highlighted m "2024/01/02 - 03:05" "2024/01/02 - 03:04"
                  = "2024/01/02 - 03:0" ++ CS.invert m ++ "4"
                      ++ CS.invert_rst m).
  { unfold highlighted. cbn. now rewrite append_assoc, append_nil_r. }
  assert (Hplain : forall c, FrameClock.format_val m c c = format c).
  { intros c. unfold FrameClock.format_val, diff. apply diff_text_same. }
  split; [|split; [|split; [|split]]].
  - intros self cur Hcur. unfold FrameClock.format. rewrite Hcur.
    split; [apply Hplain | split].
    + intros Hnone. rewrite Hnone. apply Hplain.
    + intros prev Hprev. rewrite Hprev.
      unfold FrameClock.format_val, diff. apply diff_text_highlighted.
  - exact Hmark.
  - rewrite diff_text_highlighted. exact Hmark.
  - unfold FrameClock.format, ticking_frame, FrameClock.format_val, diff.
    cbn [TypedFrame.data_ TypedFrame.prev_data_].
    rewrite diff_text_highlighted. unfold highlighted. cbn.
    now rewrite append_assoc, append_nil_r.
  - unfold FrameClock.format, ticking_frame.
    cbn [TypedFrame.data_ TypedFrame.prev_data_]. rewrite Hplain.
    reflexivity.
Qed.

Lemma format_marks_differing_characters_witness :
  FrameClock.format brackets ticking_frame false = "0024/01/02 - 03:0[4]".
Proof.
  destruct (format_marks_differing_characters brackets) as (Hany & _).
  destruct (Hany ticking_frame clock_0304 eq_refl) as (_ & _ & Hprev).
  rewrite (Hprev clock_0305 eq_refl). reflexivity.
Defined.

(** C10: without a current payload [format] gives the text N/A, with
    [no_diff] true and with [no_diff] false. *)
Theorem format_absent_current :
  forall (m : CS.markers) (self : FrameClock.t) (no_diff : bool),
    TypedFrame.data_ self = None ->
    FrameClock.format m self no_diff = "N/A".
Proof.
  intros m self no_diff Hnone. unfold FrameClock.format. now rewrite Hnone.
Qed.

Lemma format_absent_current_witness :
  FrameClock.format brackets (TypedFrame.new blank_frame) true = "N/A" /\
  FrameClock.format brackets (TypedFrame.new blank_frame) false = "N/A".
Proof.
  split; apply format_absent_current; reflexivity.
Defined.

End Formatting.

(* ------------------------------------------------------------------------- *)
(** * clock_time::format: the shape of the text *)

Section FormatShape.
Import Stream Digits ClockTime ChangeSpec Samples.

Lemma length_append (a b : string) :
  String.length (a ++ b) = String.length a + String.length b.
Proof.
induction a as [|x a IH]; simpl; [reflexivity | now rewrite IH].
Qed.

Lemma to_N_inj (a b : byte) : Byte.to_N a = Byte.to_N b -> a = b.
Proof.
intros H. pose proof (Byte.of_to_N a) as Ha. rewrite H, Byte.of_to_N in Ha.
now injection Ha.
Qed.

(** The year field: four digits that write the counter. *)
Lemma year_field (b : byte) :
  String.length (put_int 4 "0" (Byte.to_N b)) = 4 /\
  all_digits (put_int 4 "0" (Byte.to_N b)) = true /\
  to_num (put_int 4 "0" (Byte.to_N b)) = Byte.to_N b.
Proof. destruct b; vm_compute; auto. Qed.

(** A field of width 2: two or three digits that write the counter. *)
Lemma short_field (b : byte) :
  String.length (put_int 2 "0" (Byte.to_N b)) = width2 b /\
  all_digits (put_int 2 "0" (Byte.to_N b)) = true /\
  to_num (put_int 2 "0" (Byte.to_N b)) = Byte.to_N b.
Proof. destruct b; vm_compute; auto. Qed.

Lemma field_inj (w : nat) (a b : byte) :
  to_num (put_int w "0" (Byte.to_N a)) = Byte.to_N a ->
  to_num (put_int w "0" (Byte.to_N b)) = Byte.to_N b ->
  put_int w "0" (Byte.to_N a) = put_int w "0" (Byte.to_N b) -> a = b.
Proof.
intros Ha Hb Heq. apply to_N_inj. rewrite <- Ha, <- Hb. now rewrite Heq.
Qed.

(** Two texts that start with digits up to a character that is none agree
    on the digits, on that character and on what follows. *)
Lemma digits_then_other (s1 s2 r1 r2 : string) (c1 c2 : ascii) :
  all_digits s1 = true -> all_digits s2 = true ->
  is_digit c1 = false -> is_digit c2 = false ->
  s1 ++ String c1 r1 = s2 ++ String c2 r2 ->
  s1 = s2 /\ c1 = c2 /\ r1 = r2.
Proof.
revert s2. induction s1 as [|x s1 IH]; intros [|y s2] H1 H2 Hc1 Hc2 Heq;
  simpl in *.
- injection Heq as -> ->. auto.
- injection Heq as -> _. apply andb_true_iff in H2. destruct H2 as [Hy _].
  congruence.
- injection Heq as -> _. apply andb_true_iff in H1. destruct H1 as [Hx _].
  congruence.
- injection Heq as -> Heq.
  apply andb_true_iff in H1. apply andb_true_iff in H2.
  destruct (IH s2 (proj2 H1) (proj2 H2) Hc1 Hc2 Heq) as (-> & -> & ->).
  auto.
Qed.

Lemma format_fields (c : clock_time) :
  format c
  = put_int 4 "0" (Byte.to_N (year c)) ++ "/"
      ++ put_int 2 "0" (Byte.to_N (month c)) ++ "/"
      ++ put_int 2 "0" (Byte.to_N (day c)) ++ " - "
      ++ put_int 2 "0" (Byte.to_N (hour c)) ++ ":"
      ++ put_int 2 "0" (Byte.to_N (minute c)).
Proof.
unfold format. cbn [append]. now rewrite !append_assoc.
Qed.

Lemma format_same_counters (a b : clock_time) :
  year a = year b -> month a = month b -> day a = day b ->
  hour a = hour b -> minute a = minute b -> format a = format b.
Proof.
intros Hy Hmo Hd Hh Hmi. unfold format. now rewrite Hy, Hmo, Hd, Hh, Hmi.
Qed.

Lemma format_counters (a b : clock_time) :
  format a = format b ->
  year a = year b /\ month a = month b /\ day a = day b /\
  hour a = hour b /\ minute a = minute b.
Proof.
rewrite !format_fields. intros H.
destruct (year_field (year a)) as (_ & Hya & Hyan).
destruct (year_field (year b)) as (_ & Hyb & Hybn).
destruct (short_field (month a)) as (_ & Hma & Hman).
destruct (short_field (month b)) as (_ & Hmb & Hmbn).
destruct (short_field (day a)) as (_ & Hda & Hdan).
destruct (short_field (day b)) as (_ & Hdb & Hdbn).
destruct (short_field (hour a)) as (_ & Hha & Hhan).
destruct (short_field (hour b)) as (_ & Hhb & Hhbn).
destruct (short_field (minute a)) as (_ & _ & Hmian).
destruct (short_field (minute b)) as (_ & _ & Hmibn).
apply (digits_then_other _ _ _ _ "/" "/" Hya Hyb eq_refl eq_refl) in H.
destruct H as (Hy & _ & H).
apply (digits_then_other _ _ _ _ "/" "/" Hma Hmb eq_refl eq_refl) in H.
destruct H as (Hmo & _ & H).
apply (digits_then_other _ _ _ _ " " " " Hda Hdb eq_refl eq_refl) in H.
destruct H as (Hd & _ & H).
injection H as H.
apply (digits_then_other _ _ _ _ ":" ":" Hha Hhb eq_refl eq_refl) in H.
destruct H as (Hh & _ & Hmi).
repeat split; eapply field_inj; eassumption.
Qed.

Lemma format_length_sum (c : clock_time) :
  String.length (format c)
  = 10 + width2 (month c) + width2 (day c) + width2 (hour c)
      + width2 (minute c).
Proof.
rewrite format_fields, !length_append.
destruct (year_field (year c)) as (-> & _).
destruct (short_field (month c)) as (-> & _).
destruct (short_field (day c)) as (-> & _).
destruct (short_field (hour c)) as (-> & _).
destruct (short_field (minute c)) as (-> & _).
simpl. lia.
Qed.

Lemma format_at_least_18 (c : clock_time) : 18 <= String.length (format c).
Proof.
rewrite format_length_sum. unfold width2.
destruct (Byte.to_N (month c) <? 100)%N, (Byte.to_N (day c) <? 100)%N,
  (Byte.to_N (hour c) <? 100)%N, (Byte.to_N (minute c) <? 100)%N; lia.
Qed.

(** X1: the text of [format] is 10 characters and the four fields of
    width 2 long, each of these 2 characters wide for a counter below 100
    and 3 from 100 on: between 18 and 22 characters in all. *)
Theorem format_length :
  forall c : clock_time,
    String.length (format c)
    = 10 + width2 (month c) + width2 (day c) + width2 (hour c)
        + width2 (minute c) /\
    18 <= String.length (format c) <= 22.
Proof.
intros c. split; [apply format_length_sum|].
rewrite format_length_sum. unfold width2.
destruct (Byte.to_N (month c) <? 100)%N, (Byte.to_N (day c) <? 100)%N,
  (Byte.to_N (hour c) <? 100)%N, (Byte.to_N (minute c) <? 100)%N; lia.
Qed.

(** X2: two payloads have the same text exactly when their year, month,
    day, hour and minute agree; the text says nothing of the id and of the
    reserved bytes. *)
Theorem format_tells_counters :
  forall a b : clock_time,
    format a = format b
    <-> year a = year b /\ month a = month b /\ day a = day b /\
        hour a = hour b /\ minute a = minute b.
Proof.
intros a b. split.
- apply format_counters.
- intros (Hy & Hmo & Hd & Hh & Hmi). now apply format_same_counters.
Qed.

(** X3: [operator==] holds exactly when the ids agree and the two texts of
    [format] are the same. *)
Theorem eqb_id_and_text :
  forall a b : clock_time,
    eqb a b = true <-> id a = id b /\ format a = format b.
Proof.
intros a b. rewrite eqb_same_fields. unfold same_fields. split.
- intros (Hid & Hy & Hmo & Hd & Hh & Hmi).
  split; [exact Hid | now apply format_same_counters].
- intros (Hid & Htext). apply format_counters in Htext. tauto.
Qed.

(** X4: [operator==] is reflexive, symmetric and transitive, and does not
    tell apart payloads that differ in reserved bytes only. *)
Theorem eqb_equivalence :
  (forall a : clock_time, eqb a a = true) /\
  (forall a b : clock_time, eqb a b = eqb b a) /\
  (forall a b c : clock_time,
      eqb a b = true -> eqb b c = true -> eqb a c = true) /\
  (forall (a : clock_time) (r1 r2 r3 r4 : byte),
      eqb a {| id := id a; reserved1 := r1; reserved2 := r2;
               year := year a; month := month a; day := day a;
               hour := hour a; minute := minute a;
               reserved3 := r3; reserved4 := r4 |} = true).
Proof.
split; [|split; [|split]].
- intros a. apply eqb_same_fields. repeat split.
- intros a b. destruct (eqb a b) eqn:Hab, (eqb b a) eqn:Hba; try reflexivity.
  + apply eqb_same_fields in Hab. rewrite <- Hba. symmetry.
    apply eqb_same_fields. unfold same_fields in *. intuition congruence.
  + apply eqb_same_fields in Hba. rewrite <- Hab.
    apply eqb_same_fields. unfold same_fields in *. intuition congruence.
- intros a b c Hab Hbc. apply eqb_same_fields in Hab, Hbc.
  apply eqb_same_fields. unfold same_fields in *. intuition congruence.
- intros a r1 r2 r3 r4. apply eqb_same_fields. repeat split.
Qed.

Lemma eqb_equivalence_witness :
  eqb clock_0304 (Schema.as_clock_time
                    (BaseFrame.packet raw_clock_0304_reserved)) = true.
Proof.
destruct eqb_equivalence as (_ & _ & Htrans & _).
apply (Htrans _ (Schema.as_clock_time (BaseFrame.packet raw_clock_0304)));
  reflexivity.
Defined.

End FormatShape.

(* ------------------------------------------------------------------------- *)
(** * clock_time::diff: what the markers add *)

Section DiffCounting.
Import Stream DiffSpec DiffCount ClockTime Samples.

Lemma walk_unmarked (ref cur : string) :
  walk "" "" ref cur = String.substring 0 (String.length ref) cur.
Proof.
revert cur. induction ref as [|r ref IH]; intros [|c cur]; try reflexivity.
cbn [walk String.length String.substring]. rewrite IH.
unfold emit, of_char. now destruct (negb (Ascii.eqb r c)).
Qed.

Lemma take_drop (n : nat) (s : string) :
  String.substring 0 n s ++ drop n s = s.
Proof.
revert n. induction s as [|c s IH]; intros [|n]; simpl; try reflexivity.
now rewrite IH.
Qed.

Lemma length_emit (inv rst : string) (d : bool) (c : ascii) :
  String.length (emit inv rst d c)
  = 1 + (if d then String.length inv + String.length rst else 0).
Proof.
unfold emit, of_char. destruct d; [|reflexivity].
rewrite !length_append. simpl. lia.
Qed.

Lemma length_walk_drop (inv rst ref cur : string) :
  String.length (walk inv rst ref cur ++ drop (String.length ref) cur)
  = String.length cur
    + mismatches ref cur * (String.length inv + String.length rst).
Proof.
revert cur. induction ref as [|r ref IH]; intros [|c cur]; try reflexivity.
- simpl. lia.
- cbn [walk String.length drop mismatches].
  rewrite append_assoc, length_append, IH, length_emit.
  destruct (Ascii.eqb r c); simpl; lia.
Qed.

(** X5: with a pair of empty markers the diff is the current text followed
    by the separator, whatever the reference: every character of the
    current text is written once, in order, and none of the reference. *)
Theorem diff_keeps_current_text :
  forall (ref cur separator : string) (self reference : clock_time),
    diff_text no_markers ref cur separator = cur ++ separator /\
    diff no_markers self reference separator = format self ++ separator.
Proof.
assert (H : forall ref cur separator,
           diff_text no_markers ref cur separator = cur ++ separator).
{ intros ref cur separator. rewrite diff_text_walk. cbn [no_markers
    CS.invert CS.invert_rst]. rewrite walk_unmarked, <- append_assoc.
  now rewrite take_drop. }
intros ref cur separator self reference. split; [apply H|].
unfold diff. apply H.
Qed.

Lemma length_diff_text (m : CS.markers) (ref cur separator : string) :
  String.length (diff_text m ref cur separator)
  = String.length cur
    + mismatches ref cur
      * (String.length (CS.invert m) + String.length (CS.invert_rst m))
    + String.length separator.
Proof.
rewrite diff_text_walk, <- append_assoc, length_append, length_walk_drop.
reflexivity.
Qed.

(** X6: the diff is as long as the current text and the separator, and
    longer by the length of the two markers for each index, below the
    length of both texts, at which the texts differ. *)
Theorem diff_length :
  forall (m : CS.markers) (ref cur separator : string),
    String.length (diff_text m ref cur separator)
    = String.length cur
      + mismatches ref cur
        * (String.length (CS.invert m) + String.length (CS.invert_rst m))
      + String.length separator.
Proof.
intros m ref cur separator. apply length_diff_text.
Qed.

(** X7: the separator comes last and is the only thing that depends on it:
    the diff with a separator is the diff without one, followed by the
    separator; and the diff of a payload against itself is its text. *)
Theorem diff_separator_last :
  forall (m : CS.markers) (self reference : clock_time) (separator : string),
    diff m self reference separator
    = diff m self reference "" ++ separator /\
    diff m self self separator = format self ++ separator.
Proof.
intros m self reference separator. unfold diff. rewrite !diff_text_walk.
split.
- now rewrite append_nil_r, append_assoc.
- now rewrite walk_same, drop_length.
Qed.

End DiffCounting.

(* ------------------------------------------------------------------------- *)
(** * FrameClock: format, format_prev and the cycle *)

Section FrameClockCycle.
Import Schema Stream DiffSpec DiffCount ClockTime ChangeSpec Samples.
Import CycleSamples.

Lemma format_val_same (m : CS.markers) (c : clock_time) :
  FrameClock.format_val m c c = format c.
Proof. unfold FrameClock.format_val, diff. apply diff_text_same. Qed.

Lemma format_val_same_text (m : CS.markers) (cur ref : clock_time) :
  format ref = format cur -> FrameClock.format_val m cur ref = format cur.
Proof.
intros H. unfold FrameClock.format_val, diff. rewrite H.
apply diff_text_same.
Qed.

(** X8: [format_prev()] is the text N/A without a previous payload and the
    text of the previous payload otherwise, with no marker in it. *)
Theorem format_prev_plain :
  forall (m : CS.markers) (self : FrameClock.t),
    FrameClock.format_prev m self
    = match TypedFrame.prev_data_ self with
      | None => "N/A"
      | Some prev => format prev
      end.
Proof.
intros m self. unfold FrameClock.format_prev.
destruct (TypedFrame.prev_data_ self); [apply format_val_same | reflexivity].
Qed.

(** X9: once [transfer()] has run on a frame with a current payload,
    [format(false)] and [format_prev()] both give the plain text of that
    payload, [is_changed()] is false and [has_previous_data()] is true. *)
Theorem transfer_settles_clock :
  forall (m : CS.markers) (self : FrameClock.t) (cur : clock_time),
    TypedFrame.data_ self = Some cur ->
    FrameClock.format m (FrameClock.transfer self) false = format cur /\
    FrameClock.format_prev m (FrameClock.transfer self) = format cur /\
    FrameClock.is_changed (FrameClock.transfer self) = false /\
    TypedFrame.has_previous_data (FrameClock.transfer self) = true.
Proof.
intros m [b d p] cur Hcur. simpl in Hcur. subst d.
unfold FrameClock.transfer, TypedFrame.transfer, FrameClock.format,
  FrameClock.format_prev, FrameClock.is_changed, TypedFrame.is_changed,
  TypedFrame.has_previous_data.
cbn [TypedFrame.has_value TypedFrame.data_ TypedFrame.prev_data_ andb].
rewrite format_val_same, neqb_refl. auto.
Qed.

Lemma transfer_settles_clock_witness :
  FrameClock.format brackets (FrameClock.transfer ticking_frame) false
  = "0024/01/02 - 03:04" /\
  FrameClock.is_changed (FrameClock.transfer ticking_frame) = false.
Proof.
destruct (transfer_settles_clock brackets ticking_frame clock_0304 eq_refl)
  as (Hformat & _ & Hchanged & _).
split; [rewrite Hformat; reflexivity | exact Hchanged].
Defined.

(** X10: when [is_changed()] is false, both payloads are present and
    [format(false)] has no marker: it is the text [format(true)] gives. *)
Theorem unchanged_clock_is_plain :
  forall (m : CS.markers) (self : FrameClock.t),
    FrameClock.is_changed self = false ->
    TypedFrame.has_previous_data self = true /\
    FrameClock.format m self false = FrameClock.format m self true.
Proof.
intros m [b [d|] [p|]] H; try discriminate H.
unfold FrameClock.is_changed, TypedFrame.is_changed in H.
cbn [TypedFrame.data_ TypedFrame.prev_data_] in H.
apply neqb_same_fields in H. destruct H as (_ & Hy & Hmo & Hd & Hh & Hmi).
split; [reflexivity|].
unfold FrameClock.format. cbn [TypedFrame.data_ TypedFrame.prev_data_].
rewrite format_val_same. apply format_val_same_text.
symmetry. now apply format_same_counters.
Qed.

Lemma unchanged_clock_is_plain_witness :
  FrameClock.format brackets (FrameClock.transfer ticking_frame) false
  = FrameClock.format brackets (FrameClock.transfer ticking_frame) true.
Proof.
apply (unchanged_clock_is_plain brackets (FrameClock.transfer ticking_frame)).
reflexivity.
Defined.

(** X11: a change of the id alone is reported by [is_changed()] and not
    shown by [format(false)]: when the five counters of the current and the
    previous payload agree, [format(false)] is the plain text, and
    [is_changed()] is true exactly when the ids differ. *)
Theorem id_change_is_not_shown :
  forall (m : CS.markers) (self : FrameClock.t) (cur prev : clock_time),
    TypedFrame.data_ self = Some cur ->
    TypedFrame.prev_data_ self = Some prev ->
    format cur = format prev ->
    FrameClock.format m self false = format cur /\
    FrameClock.is_changed self = negb (Byte.eqb (id cur) (id prev)).
Proof.
intros m [b d p] cur prev Hcur Hprev Htext. simpl in Hcur, Hprev.
subst d p. split.
- unfold FrameClock.format. cbn [TypedFrame.data_ TypedFrame.prev_data_].
  now apply format_val_same_text.
- unfold FrameClock.is_changed, TypedFrame.is_changed.
  cbn [TypedFrame.data_ TypedFrame.prev_data_].
  apply format_counters in Htext.
  destruct Htext as (Hy & Hmo & Hd & Hh & Hmi).
  unfold neqb, eqb. rewrite Hy, Hmo, Hd, Hh, Hmi.
  rewrite !(proj2 (byte_eqb_eq _ _) eq_refl). now rewrite !andb_true_r.
Qed.

Lemma id_change_is_not_shown_witness :
  FrameClock.format brackets renamed_frame false = "0024/01/02 - 03:04" /\
  FrameClock.is_changed renamed_frame = true.
Proof.
destruct (id_change_is_not_shown brackets renamed_frame clock_0304
            clock_0304_other_id eq_refl eq_refl eq_refl)
  as (Hformat & Hchanged).
split; [rewrite Hformat; reflexivity | rewrite Hchanged; reflexivity].
Defined.

(** X12: with a current payload, [format] gives at least the 18 characters
    of the plain text, so never the text N/A of the absent case. *)
Theorem format_present_is_not_sentinel :
  forall (m : CS.markers) (self : FrameClock.t) (cur : clock_time)
         (no_diff : bool),
    TypedFrame.data_ self = Some cur ->
    18 <= String.length (FrameClock.format m self no_diff) /\
    FrameClock.format m self no_diff <> "N/A".
Proof.
intros m self cur no_diff Hcur.
assert (Hlen : 18 <= String.length (FrameClock.format m self no_diff)).
{ unfold FrameClock.format. rewrite Hcur.
  unfold FrameClock.format_val, diff. rewrite length_diff_text.
  pose proof (format_at_least_18 cur). lia. }
split; [exact Hlen|]. intros Heq. rewrite Heq in Hlen. simpl in Hlen. lia.
Qed.

Lemma format_present_is_not_sentinel_witness :
  FrameClock.format brackets ticking_frame false <> "N/A".
Proof.
apply (format_present_is_not_sentinel brackets ticking_frame clock_0304 false).
reflexivity.
Defined.

End FrameClockCycle.

(* ------------------------------------------------------------------------- *)
(** * The typed frame over a sequence of calls *)

Section TypedFrameRuns.
Import Schema TypedFrame Cycle.

Variable type_name : Type.
Variable as_type : hp_packetdata_t -> type_name.

Lemma has_value_transfer_prev (self : t type_name) :
  has_value (prev_data_ (transfer self))
  = has_value (data_ self) || has_value (prev_data_ self).
Proof. destruct self as [b [d|] [p|]]; reflexivity. Qed.

Lemma run_has_data (ops : list op) (self : t type_name) :
  has_value (data_ (run as_type self ops))
  = has_value (data_ self) || has_stage ops.
Proof.
revert self. induction ops as [|[b|] ops IH]; intros self; simpl.
- now rewrite orb_false_r.
- rewrite IH. simpl. now rewrite orb_true_r.
- rewrite IH, transfer_data. reflexivity.
Qed.

Lemma run_has_prev (ops : list op) (self : t type_name) :
  has_value (prev_data_ (run as_type self ops))
  = has_value (prev_data_ self)
    || transfer_after_stage (has_value (data_ self)) ops.
Proof.
revert self. induction ops as [|[b|] ops IH]; intros self; simpl.
- now rewrite orb_false_r.
- rewrite IH. reflexivity.
- rewrite IH, has_value_transfer_prev, transfer_data.
  destruct (has_value (data_ self)), (has_value (prev_data_ self));
    reflexivity.
Qed.

Lemma transfer_after_stage_has_stage (ops : list op) :
  transfer_after_stage false ops = true -> has_stage ops = true.
Proof.
induction ops as [|[b|] ops IH]; simpl; intros H;
  [discriminate | reflexivity | now apply IH].
Qed.

Lemma run_in_sync (ops : list op) (self : t type_name) :
  (forall d, data_ self = Some d ->
             d = as_type (BaseFrame.packet (base self))) ->
  forall d, data_ (run as_type self ops) = Some d ->
            d = as_type (BaseFrame.packet (base (run as_type self ops))).
Proof.
revert self. induction ops as [|[b|] ops IH]; intros self Hsync; simpl.
- exact Hsync.
- apply IH. intros d Hd. simpl in Hd. now injection Hd as <-.
- apply IH. rewrite transfer_data, transfer_base. exact Hsync.
Qed.

(** X13: [transfer()] run twice is [transfer()] run once, and it never
    takes a payload away: the current payload is present after it exactly
    when it was before, and a previous payload is present after it exactly
    when a current or a previous one was before. *)
Theorem transfer_idempotent :
  forall self : t type_name,
    transfer (transfer self) = transfer self /\
    has_value (data_ (transfer self)) = has_value (data_ self) /\
    has_value (prev_data_ (transfer self))
    = has_value (data_ self) || has_value (prev_data_ self).
Proof.
intros [b [d|] [p|]]; repeat split.
Qed.

(** X14: on a frame object driven from its construction by calls of
    [stage] and [transfer], a current payload is present exactly when
    [stage] has been called, and [has_previous_data()] is true exactly
    when some [transfer] came after a [stage]. *)
Theorem previous_data_after_cycle :
  forall (b : BaseFrame.t) (ops : list op),
    has_value (data_ (run as_type (new b) ops)) = has_stage ops /\
    has_value (prev_data_ (run as_type (new b) ops))
    = transfer_after_stage false ops /\
    has_previous_data (run as_type (new b) ops)
    = transfer_after_stage false ops.
Proof.
intros b ops.
pose proof (run_has_data ops (new b)) as Hdata.
pose proof (run_has_prev ops (new b)) as Hprev.
simpl in Hdata, Hprev. repeat split; try assumption.
unfold has_previous_data. rewrite Hdata, Hprev.
destruct (transfer_after_stage false ops) eqn:H.
- now rewrite (transfer_after_stage_has_stage ops H).
- apply andb_false_r.
Qed.

(** X15: on such a frame object the current payload, when present, is the
    payload decoded from the raw bytes the object holds: [stage] decodes
    after it has copied, and [transfer] touches neither. *)
Theorem current_decodes_own_packet :
  forall (b : BaseFrame.t) (ops : list op),
    data_ (run as_type (new b) ops)
    = if has_stage ops
      then Some (as_type
                   (BaseFrame.packet (base (run as_type (new b) ops))))
      else None.
Proof.
intros b ops.
pose proof (run_has_data ops (new b)) as Hdata. simpl in Hdata.
pose proof (run_in_sync ops (new b)) as Hsync.
destruct (data_ (run as_type (new b) ops)) as [d|] eqn:Hd;
  simpl in Hdata; rewrite <- Hdata; [|reflexivity].
f_equal. apply Hsync; [discriminate | reflexivity].
Qed.

End TypedFrameRuns.

(* ------------------------------------------------------------------------- *)
(** * FrameClock::parse *)

Section ParseFacts.
Import Schema CTime ClockTime Samples CycleSamples.

Lemma decode_same_counters (mktime : tm -> time_t) (a b : clock_time) :
  format a = format b -> decode mktime a = decode mktime b.
Proof.
intros H. apply format_counters in H.
destruct H as (Hy & Hmo & Hd & Hh & Hmi).
unfold decode. now rewrite Hy, Hmo, Hd, Hh, Hmi.
Qed.

(** X16: [parse] is idempotent, and the time it stores depends on the five
    counters alone: two frames whose current payloads have the same text
    leave the same domain state, whatever their ids, reserved bytes and
    previous payloads. *)
Theorem parse_reads_counters_only :
  forall (Others : Type) (mktime : tm -> time_t) (self other : FrameClock.t)
         (hp_data : heat_pump_data_t Others),
    FrameClock.parse mktime self (FrameClock.parse mktime self hp_data)
    = FrameClock.parse mktime self hp_data /\
    (forall cur cur',
        TypedFrame.data_ self = Some cur ->
        TypedFrame.data_ other = Some cur' ->
        format cur = format cur' ->
        FrameClock.parse mktime self hp_data
        = FrameClock.parse mktime other hp_data).
Proof.
intros Others mktime self other hp_data. split.
- unfold FrameClock.parse. destruct (TypedFrame.data_ self); reflexivity.
- intros cur cur' Hcur Hcur' Htext. unfold FrameClock.parse.
  rewrite Hcur, Hcur'. now rewrite (decode_same_counters mktime cur cur').
Qed.

Lemma parse_reads_counters_only_witness :
  FrameClock.parse (fun t => tm_min t) ticking_frame
    {| time := 0%Z; others := tt |}
  = FrameClock.parse (fun t => tm_min t)
      (TypedFrame.transfer renamed_frame) {| time := 0%Z; others := tt |}.
Proof.
destruct (parse_reads_counters_only unit (fun t => tm_min t) ticking_frame
            (TypedFrame.transfer renamed_frame)
            {| time := 0%Z; others := tt |}) as (_ & Hsame).
apply (Hsame clock_0304 clock_0304); reflexivity.
Defined.

End ParseFacts.

(* ------------------------------------------------------------------------- *)
(** * Assignments of byte arrays, one after another *)

Section AssignTwice.
Import Schema BaseFrame Construct Samples CycleSamples.

Lemma memcpy_over (d a b : list byte) (na nb : nat) :
  na <= nb -> na <= List.length a ->
  memcpy (memcpy d a na) b nb = memcpy d b nb.
Proof.
intros Hle Ha. unfold memcpy. f_equal.
rewrite skipn_app, length_firstn, Nat.min_l by exact Ha.
rewrite (skipn_all2 (firstn na a)) by (rewrite length_firstn; lia).
rewrite skipn_skipn. simpl. f_equal. lia.
Qed.

Lemma assign_array_capacity (now : N) (self : t) (a : list byte) :
  sizeof_data (packet (assign_array now self a)) = sizeof_data (packet self).
Proof.
unfold assign_array, sizeof_data.
cbn [set_frame_time_ms set_packet packet data data_len].
destruct (Nat.leb_spec (List.length a) (List.length (data (packet self))));
  apply memcpy_length; lia.
Qed.

Lemma assign_array_fields (now : N) (self : t) (a : list byte) :
  assign_array now self a
  = {| packet :=
         {| data := memcpy (data (packet self)) a
                      (Nat.min (List.length a) (sizeof_data (packet self)));
            data_len := Nat.min (List.length a) (sizeof_data (packet self)) |};
       transmitBitIndex := transmitBitIndex self;
       finalized := finalized self;
       source_ := source_ self;
       frame_time_ms_ := now;
       frame_age_ms_ := frame_age_ms_ self;
       type_id_ := type_id_ self;
       byte_signature_ := byte_signature_ self;
       prev_ := prev_ self |}.
Proof.
unfold assign_array, set_frame_time_ms, set_packet.
cbn [packet data data_len transmitBitIndex finalized source_
     frame_time_ms_ frame_age_ms_ type_id_ byte_signature_ prev_].
replace (if (List.length a <=? sizeof_data (packet self))%nat
         then List.length a else sizeof_data (packet self))
  with (Nat.min (List.length a) (sizeof_data (packet self)));
  [reflexivity|].
destruct (Nat.leb_spec (List.length a) (sizeof_data (packet self))); lia.
Qed.

(** X17: an assignment hides an earlier assignment of an array that is no
    longer: the frame is the one the later assignment alone gives. In
    particular the same assignment made twice is the assignment made
    once. *)
Theorem assign_array_overwrites :
  forall (now1 now2 : N) (self : t) (a b : list byte),
    List.length a <= List.length b ->
    assign_array now2 (assign_array now1 self a) b = assign_array now2 self b.
Proof.
intros now1 now2 self a b Hle.
rewrite (assign_array_fields now2 (assign_array now1 self a)).
rewrite assign_array_capacity. rewrite !assign_array_fields.
cbn [packet data data_len transmitBitIndex finalized source_
     frame_time_ms_ frame_age_ms_ type_id_ byte_signature_ prev_].
rewrite memcpy_over; [reflexivity | lia |].
unfold sizeof_data. lia.
Qed.

Lemma assign_array_overwrites_witness :
  assign_array 9%N (assign_array 7%N blank_frame short_array) mid_array
  = assign_array 9%N blank_frame mid_array.
Proof.
apply assign_array_overwrites. vm_compute. lia.
Defined.

(** X18: the assignment of a shorter array after a longer one that fits
    the buffer does not clear what the longer one left behind: the length
    is that of the shorter array, the buffer starts with its bytes, and
    the bytes from there up to the length of the longer array are still
    those of the longer array. *)
Theorem assign_array_leaves_stale_bytes :
  forall (now1 now2 : N) (self : t) (a b : list byte),
    List.length b < List.length a ->
    List.length a <= sizeof_data (packet self) ->
    let result := assign_array now2 (assign_array now1 self a) b in
    data_len (packet result) = List.length b /\
    firstn (List.length b) (data (packet result)) = b /\
    (forall i, List.length b <= i < List.length a ->
               nth i (data (packet result)) x00 = nth i a x00).
Proof.
intros now1 now2 self a b Hlt Hfit result. unfold result.
rewrite (assign_array_fields now2 (assign_array now1 self a)).
rewrite assign_array_capacity, assign_array_fields.
cbn [packet data data_len].
rewrite (Nat.min_l (List.length b)), (Nat.min_l (List.length a)) by lia.
split; [reflexivity|]. split.
- rewrite memcpy_prefix by lia. apply firstn_all.
- intros i Hi. unfold memcpy. rewrite (firstn_all a), (firstn_all b).
  rewrite app_nth2 by lia. rewrite nth_skipn.
  replace (List.length b + (i - List.length b)) with i by lia.
  apply app_nth1. lia.
Qed.

Lemma assign_array_leaves_stale_bytes_witness :
  nth 6 (data (packet (assign_array 9%N
                         (assign_array 7%N blank_frame mid_array)
                         short_array))) x00
  = xb7.
Proof.
destruct (assign_array_leaves_stale_bytes 7%N 9%N blank_frame mid_array
            short_array) as (_ & _ & Hstale).
- vm_compute. lia.
- vm_compute. lia.
- rewrite Hstale; [reflexivity | vm_compute; lia].
Defined.

(** X19: a typed frame built from a byte array holds at most as many bytes
    as the buffer of a blank frame has room for, has the payload decoded
    from its own bytes as current payload and no previous one; so it
    reports a change, has no previous data, and a Clock frame built this
    way shows no marker. *)
Theorem of_array_is_fresh :
  forall (T : Type) (as_type : hp_packetdata_t -> T)
         (neqb : T -> T -> bool) (now : N) (blank : t) (cmdTrame : list byte),
    let frame := of_array as_type now blank cmdTrame in
    data_len (packet (TypedFrame.base frame))
    = Nat.min (List.length cmdTrame) (sizeof_data (packet blank)) /\
    TypedFrame.data_ frame
    = Some (as_type (packet (TypedFrame.base frame))) /\
    TypedFrame.is_changed neqb frame = true /\
    TypedFrame.has_previous_data frame = false /\
    (forall (m : CS.markers)
            (as_clock : hp_packetdata_t -> ClockTime.clock_time),
        FrameClock.format m (of_array as_clock now blank cmdTrame) false
        = FrameClock.format m (of_array as_clock now blank cmdTrame) true).
Proof.
intros T as_type neqb now blank cmdTrame frame. unfold frame.
repeat split.
unfold of_array, BaseFrame_of_array, assign_array, sizeof_data.
cbn [TypedFrame.base set_frame_time_ms set_packet packet data data_len].
destruct (Nat.leb_spec (List.length cmdTrame)
            (List.length (data (packet blank)))); lia.
Qed.

End AssignTwice.
